(** * PyCallingAgent: the agent execution engine of [py_calling_agent/agent.py]

    A shallow embedding of the step/turn state machine, the bounded message
    store, the non-streaming and streaming response pipelines and the event
    protocol, together with the properties stated about them.

    Conventions of the embedding:
    - a Python [int] is a [Z]; a Python [str] is a [string];
    - a method that mutates [self] becomes a function returning the new value;
    - the collaborators that live in other modules ([Model], [PythonRuntime],
      [extract_python_code], the prompt templates, [StreamingTextParser]) are
      the fields of the class [Collaborators];
    - calls to [self.logger] only print to the console and are left out. *)

From Stdlib Require Import ZArith String Ascii List Lia Bool.
From stdpp Require Import base list gmap.
From Equations Require Import Equations.
Import ListNotations.

Local Open Scope string_scope.
Local Open Scope list_scope.
Local Open Scope Z_scope.

(** ** Data model *)

(** [class MessageRole(str, Enum)] *)
Inductive MessageRole :=
| SYSTEM
| USER
| ASSISTANT
| CODE_EXECUTION
| EXECUTION_RESULT.

Global Instance MessageRole_eq_dec : EqDecision MessageRole.
Proof. solve_decision. Defined.

(** The [.value] of a role: the string the enum member was declared with. *)
Definition role_value (r : MessageRole) : string :=
  match r with
  | SYSTEM => "system"
  | USER => "user"
  | ASSISTANT => "assistant"
  | CODE_EXECUTION => "code_execution"
  | EXECUTION_RESULT => "execution_result"
  end.

(** The module-level dict [role_conversions], as the association list of its
    two entries, and [dict.get(key, default)] on it. *)
Definition role_conversions : list (MessageRole * MessageRole) :=
  [ (CODE_EXECUTION, ASSISTANT); (EXECUTION_RESULT, USER) ].

Fixpoint dict_get (d : list (MessageRole * MessageRole))
    (key default : MessageRole) : MessageRole :=
  match d with
  | [] => default
  | (k, v) :: d' => if decide (k = key) then v else dict_get d' key default
  end.

(** The role mapping as the specification words it (section 3):
    CODE_EXECUTION to ASSISTANT, EXECUTION_RESULT to USER, all others
    unchanged.  The code's mapping is [dict_get role_conversions]. *)
Definition spec_role_mapping (r : MessageRole) : MessageRole :=
  match r with
  | CODE_EXECUTION => ASSISTANT
  | EXECUTION_RESULT => USER
  | other => other
  end.

(** The class of a message object.  [_update_system_message] tests
    [isinstance(_, SystemMessage)], which looks at the class and not at the
    [role] attribute, so the class is part of the data. *)
Inductive MessageClass :=
| MessageBase
| SystemMessageCls
| UserMessageCls
| AssistantMessageCls
| CodeExecutionMessageCls
| ExecutionResultMessageCls.

Global Instance MessageClass_eq_dec : EqDecision MessageClass.
Proof. solve_decision. Defined.

Record Message := mkMessage {
  msg_class : MessageClass;
  content : string;
  role : MessageRole
}.

Definition SystemMessage (c : string) : Message :=
  mkMessage SystemMessageCls c SYSTEM.
Definition UserMessage (c : string) : Message :=
  mkMessage UserMessageCls c USER.
Definition AssistantMessage (c : string) : Message :=
  mkMessage AssistantMessageCls c ASSISTANT.
Definition CodeExecutionMessage (c : string) : Message :=
  mkMessage CodeExecutionMessageCls c CODE_EXECUTION.
Definition ExecutionResultMessage (c : string) : Message :=
  mkMessage ExecutionResultMessageCls c EXECUTION_RESULT.

(** [isinstance(m, SystemMessage)] *)
Definition is_SystemMessage (m : Message) : bool :=
  bool_decide (msg_class m = SystemMessageCls).

(** A message in the transport format: the dict [{"role": _, "content": _}]
    handed to the model. *)
Record TransportMessage := mkTransport {
  t_role : string;
  t_content : string
}.

(** [class EventType(Enum)] *)
Inductive EventType :=
| TEXT
| CODE
| EV_EXECUTION_RESULT
| EV_EXECUTION_ERROR
| FINAL_RESPONSE
| EV_MAX_STEPS_REACHED.

Record Event := mkEvent {
  ev_type : EventType;
  ev_content : string
}.

(** [class ContextState(IntEnum)] *)
Inductive ContextState :=
| INITIALIZED
| RUNNING
| COMPLETED
| MAX_STEPS_REACHED.

Global Instance ContextState_eq_dec : EqDecision ContextState.
Proof. solve_decision. Defined.

(** [class ExecutionStatus(Enum)] *)
Inductive ExecutionStatus :=
| SUCCESS
| ST_MAX_STEPS_REACHED.

Record AgentResponse := mkAgentResponse {
  resp_content : string;
  status : ExecutionStatus;
  steps_taken : Z;
  resp_max_steps : Z
}.

(** ** ExecutionContext *)

Module ExecutionContext.

Record t := mk {
  max_steps : Z;
  total_steps : Z;
  state : ContextState
}.

(** [__init__(self, max_steps)] *)
Definition init (max_steps : Z) : t :=
  mk max_steps 0 INITIALIZED.

(** [start(self)] *)
Definition start (c : t) : t :=
  mk (max_steps c) 0 RUNNING.

(** [next_step(self) -> bool]: the returned flag and the context after the
    call. *)
Definition next_step (c : t) : bool * t :=
  if total_steps c >=? max_steps c
  then (false, mk (max_steps c) (total_steps c) MAX_STEPS_REACHED)
  else (true, mk (max_steps c) (total_steps c + 1) (state c)).

(** [complete(self)] *)
Definition complete (c : t) : t :=
  mk (max_steps c) (total_steps c) COMPLETED.

(** The property [is_running]. *)
Definition is_running (c : t) : bool :=
  bool_decide (state c = RUNNING).

End ExecutionContext.


(** ** Exceptions and results *)

(** The exceptions the engine can meet.  All of them are instances of
    Python's [Exception]: the [IndexError] of a list subscript, and an
    exception raised by a collaborator (the model client or the sandbox),
    carried as its text. *)
Inductive Exn :=
| IndexError
| Exception (msg : string).

(** [str(e)] *)
Definition exn_str (e : Exn) : string :=
  match e with
  | IndexError => "list index out of range"
  | Exception msg => msg
  end.

Inductive Result (A : Type) :=
| Ok (a : A)
| Raise (e : Exn).
Arguments Ok {A} a.
Arguments Raise {A} e.

(** ** Python list operations used by the message store *)

Section PyList.
Context {A : Type}.

(** [l[start:]] for an integer [start]: a negative start counts from the end
    and is clipped at the front; in particular [l[-0:]] is [l[0:]]. *)
Definition slice_from (start : Z) (l : list A) : list A :=
  let n := Z.of_nat (length l) in
  if start <? 0
  then drop (Z.to_nat (Z.max 0 (n + start))) l
  else drop (Z.to_nat start) l.

(** [len(l)] *)
Definition len (l : list A) : Z := Z.of_nat (length l).

End PyList.

(** ** The message store, on the list itself *)

Module Store.

(** [_trim_history], as a function of [self.max_history] and
    [self.messages]; [self.messages[0]] raises on an empty list. *)
Definition _trim_history (max_history : Z) (messages : list Message)
    : Result (list Message) :=
  if len messages >? max_history then
    match messages with
    | [] => Raise IndexError
    | system_msg :: non_system_messages =>
        let max_non_system_messages := max_history - 1 in
        let recent_msgs :=
          if len non_system_messages >? max_non_system_messages
          then slice_from (- max_non_system_messages) non_system_messages
          else non_system_messages in
        Ok ([system_msg] ++ recent_msgs)
    end
  else Ok messages.

(** [add_message]: append, then trim. *)
Definition add_message (max_history : Z) (message : Message)
    (messages : list Message) : Result (list Message) :=
  _trim_history max_history (messages ++ [message]).

(** [_update_system_message], given the freshly built system prompt:
    [self.messages[0] = ...] when the list starts with a [SystemMessage],
    [self.messages.insert(0, ...)] otherwise. *)
Definition _update_system_message (system_prompt : string)
    (messages : list Message) : list Message :=
  match messages with
  | m0 :: rest =>
      if is_SystemMessage m0
      then SystemMessage system_prompt :: rest
      else SystemMessage system_prompt :: messages
  | [] => SystemMessage system_prompt :: messages
  end.

(** [_prepare_messages]: the list comprehension over [self.messages]. *)
Definition _prepare_messages (messages : list Message)
    : list TransportMessage :=
  map (fun message =>
         mkTransport
           (role_value (dict_get role_conversions (role message) (role message)))
           (content message))
      messages.

End Store.

(** ** Collaborators *)

(** [class SegmentType(Enum)] and [Segment] of the streaming parser. *)
Inductive SegmentType :=
| SEG_TEXT
| SEG_CODE.

Record Segment := mkSegment {
  seg_type : SegmentType;
  seg_content : string
}.

(** What the engine imports from the other modules of the package.  Each
    stateful collaborator is a transition function on its own state:
    - [model_call] is [Model.call], [model_stream] is [Model.stream] (the
      chunks it yields and, possibly, the exception that ends the stream);
    - [runtime_execute] is [PythonRuntime.execute];
    - [format_system_prompt template functions variables role_definition
      instructions additional_context] is [template.format(...)] of
      [build_system_prompt], the clock reading included;
    - [format_next_step_prompt] is [NEXT_STEP_PROMPT.format];
    - [parser_new] and [process_chunk] are [StreamingTextParser()] and its
      [process_chunk]. *)
Class Collaborators := {
  ModelState : Type;
  RuntimeState : Type;
  ParserState : Type;
  model_call : ModelState -> list TransportMessage -> Result string * ModelState;
  model_stream :
    ModelState -> list TransportMessage -> (list string * option Exn) * ModelState;
  runtime_execute : RuntimeState -> string -> Result string * RuntimeState;
  describe_functions : RuntimeState -> string;
  describe_variables : RuntimeState -> string;
  extract_python_code : string -> option string;
  format_system_prompt :
    string -> string -> string -> string -> string -> string -> string;
  format_next_step_prompt : string -> string;
  parser_new : ParserState;
  process_chunk : ParserState -> string -> list Segment * ParserState
}.

(** The calls made to the collaborators, recorded in order (a ghost field of
    the agent, used to count turns and sandbox executions). *)
Inductive Call :=
| CallModel (msgs : list TransportMessage)
| StreamModel (msgs : list TransportMessage)
| Execute (code : string).

(** The number of calls of [Model.call] in a record of calls. *)
Definition model_calls (l : list Call) : nat :=
  length
    (List.filter
       (fun c => match c with CallModel _ => true | _ => false end) l).

(** Truth value of [code_snippet] in [if not code_snippet]: [None] and the
    empty string are false. *)
Definition truthy (code_snippet : option string) : bool :=
  match code_snippet with
  | None => false
  | Some s => negb (String.eqb s "")
  end.

(** The line feed of the retry prompt's [\n]. *)
Definition LF : string := String (Ascii.ascii_of_nat 10) EmptyString.

(** [f"Error: {error_msg}\nPlease fix the code and try again."] *)
Definition retry_prompt_of (error_msg : string) : string :=
  String.append "Error: "
    (String.append error_msg
       (String.append LF "Please fix the code and try again.")).

(** [f"Execution failed: {error_msg}"] *)
Definition failure_of (error_msg : string) : string :=
  String.append "Execution failed: " error_msg.

(** The specification's words for these two strings, to compare the code's
    strings with.  "A corrective retry prompt embedding that error text": the
    error text occurs in the prompt, with words of the prompt before and
    after it. *)
Definition spec_retry_prompt (error_text prompt : string) : Prop :=
  exists before after : string,
    before <> "" /\ after <> "" /\
    prompt = String.append before (String.append error_text after).

(** "A failure-annotated string": the error text behind an annotation that
    is not empty. *)
Definition spec_failure_annotated (error_text s : string) : Prop :=
  exists annotation : string,
    annotation <> "" /\ s = String.append annotation error_text.

(** ** The agent *)

Section Agent.
Context {C : Collaborators}.

Record PyCallingAgent := mkAgent {
  model : ModelState;
  system_prompt_template : string;
  max_steps : Z;
  runtime : RuntimeState;
  agent_role : string;
  instructions : string;
  additional_context : string;
  messages : list Message;
  max_history : Z;
  calls : list Call
}.

Definition set_messages (l : list Message) (self : PyCallingAgent) :=
  mkAgent (model self) (system_prompt_template self) (max_steps self)
    (runtime self) (agent_role self) (instructions self)
    (additional_context self) l (max_history self) (calls self).

Definition set_model (m : ModelState) (self : PyCallingAgent) :=
  mkAgent m (system_prompt_template self) (max_steps self)
    (runtime self) (agent_role self) (instructions self)
    (additional_context self) (messages self) (max_history self) (calls self).

Definition set_runtime (r : RuntimeState) (self : PyCallingAgent) :=
  mkAgent (model self) (system_prompt_template self) (max_steps self)
    r (agent_role self) (instructions self)
    (additional_context self) (messages self) (max_history self) (calls self).

Definition record_call (c : Call) (self : PyCallingAgent) :=
  mkAgent (model self) (system_prompt_template self) (max_steps self)
    (runtime self) (agent_role self) (instructions self)
    (additional_context self) (messages self) (max_history self)
    (calls self ++ [c]).

(** Methods of the agent are computations on [self] that return a value or
    raise; the mutations made before a raise stay. *)
Definition M (A : Type) : Type := PyCallingAgent -> Result A * PyCallingAgent.

Definition ret {A} (a : A) : M A := fun self => (Ok a, self).

Definition bind {A B} (m : M A) (k : A -> M B) : M B :=
  fun self =>
    match m self with
    | (Ok a, self') => k a self'
    | (Raise e, self') => (Raise e, self')
    end.

(** [try: body except Exception as e: handler(e)] *)
Definition try_except {A} (body : M A) (handler : Exn -> M A) : M A :=
  fun self =>
    match body self with
    | (Ok a, self') => (Ok a, self')
    | (Raise e, self') => handler e self'
    end.

End Agent.

Notation "'do' x <- m ;; k" := (bind m (fun x => k))
  (at level 10, x name, m at level 99, k at level 200).
Notation "'do_' m ;; k" := (bind m (fun _ => k))
  (at level 10, m at level 99, k at level 200).

(** ** The step engine and the run loop *)

Section Engine.
Context {C : Collaborators}.

(** [build_system_prompt] *)
Definition build_system_prompt : M string :=
  fun self =>
    (Ok (format_system_prompt
           (system_prompt_template self)
           (describe_functions (runtime self))
           (describe_variables (runtime self))
           (agent_role self)
           (instructions self)
           (additional_context self)),
     self).

(** [add_message]: [self.messages.append(message)], then [_trim_history].
    Should the trim raise, the append has already happened. *)
Definition add_message (message : Message) : M unit :=
  fun self =>
    match Store._trim_history (max_history self) (messages self ++ [message]) with
    | Ok l => (Ok tt, set_messages l self)
    | Raise e => (Raise e, set_messages (messages self ++ [message]) self)
    end.

(** [_update_system_message] *)
Definition _update_system_message : M unit :=
  do system_prompt <- build_system_prompt ;;
  fun self =>
    (Ok tt,
     set_messages (Store._update_system_message system_prompt (messages self))
       self).

(** [_initialize_conversation] *)
Definition _initialize_conversation (user_query : string) : M unit :=
  do_ _update_system_message ;;
  add_message (UserMessage user_query).

(** [_prepare_messages] *)
Definition _prepare_messages : M (list TransportMessage) :=
  fun self => (Ok (Store._prepare_messages (messages self)), self).

(** [await self.model.call(msgs)] *)
Definition call_model (msgs : list TransportMessage) : M string :=
  fun self =>
    let '(r, m') := model_call (model self) msgs in
    (r, record_call (CallModel msgs) (set_model m' self)).

(** [await self.runtime.execute(code_snippet)] *)
Definition execute (code_snippet : string) : M string :=
  fun self =>
    let '(r, rt') := runtime_execute (runtime self) code_snippet in
    (r, record_call (Execute code_snippet) (set_runtime rt' self)).

(** [_process_model_response]: the returned string and the context after the
    call ([context.complete()] is its only effect on the context). *)
Definition _process_model_response (model_response : string)
    (context : ExecutionContext.t) : M (string * ExecutionContext.t) :=
  let code_snippet := extract_python_code model_response in
  if negb (truthy code_snippet) then
    do_ add_message (AssistantMessage model_response) ;;
    ret (model_response, ExecutionContext.complete context)
  else
    do_ add_message (CodeExecutionMessage model_response) ;;
    try_except
      (do execution_result <- execute (default "" code_snippet) ;;
       let next_prompt := format_next_step_prompt execution_result in
       do_ add_message (ExecutionResultMessage next_prompt) ;;
       ret (model_response, context))
      (fun e =>
         let error_msg := exn_str e in
         let retry_prompt := retry_prompt_of error_msg in
         do_ add_message (ExecutionResultMessage retry_prompt) ;;
         ret (failure_of error_msg, context)).

(** [_execute_step] *)
Definition _execute_step (context : ExecutionContext.t)
    : M (string * ExecutionContext.t) :=
  do msgs <- _prepare_messages ;;
  do model_response <- call_model msgs ;;
  _process_model_response model_response context.

(** How a call of [run] ends: it returns (an [AgentResponse], or [None] when
    the [while] condition fails), or an exception leaves it.  [OutOfFuel] is
    not a behaviour of the program: it marks a loop unrolling that was cut
    short, and [run] is shown never to produce it. *)
Inductive RunResult :=
| Returned (r : option AgentResponse)
| Raised (e : Exn)
| OutOfFuel.

(** The [while context.is_running] loop of [run], unrolled [fuel] times; the
    context the loop ends with is returned next to the result. *)
Fixpoint run_loop (fuel : nat) (context : ExecutionContext.t)
    (self : PyCallingAgent) : RunResult * ExecutionContext.t * PyCallingAgent :=
  match fuel with
  | O => (OutOfFuel, context, self)
  | S fuel' =>
      if ExecutionContext.is_running context then
        let '(ok, context1) := ExecutionContext.next_step context in
        if negb ok then
          (Returned (Some (mkAgentResponse ""
                             ST_MAX_STEPS_REACHED
                             (ExecutionContext.total_steps context1)
                             (max_steps self))),
           context1, self)
        else
          match _execute_step context1 self with
          | (Raise e, self2) => (Raised e, context1, self2)
          | (Ok (response, context2), self2) =>
              if negb (ExecutionContext.is_running context2) then
                (Returned (Some (mkAgentResponse response
                                   SUCCESS
                                   (ExecutionContext.total_steps context2)
                                   (max_steps self2))),
                 context2, self2)
              else run_loop fuel' context2 self2
          end
      else (Returned None, context, self)
  end.

(** The number of loop iterations [run] can need: one per step of the budget
    and one for the gate to fail. *)
Definition loop_bound (max_steps : Z) : nat := S (Z.to_nat max_steps).

(** [run]: result, final context (a local of [run], kept for the statements
    about it) and agent. *)
Definition run_ctx (query : string) (self : PyCallingAgent)
    : RunResult * ExecutionContext.t * PyCallingAgent :=
  let context := ExecutionContext.init (max_steps self) in
  let context := ExecutionContext.start context in
  match _initialize_conversation query self with
  | (Raise e, self1) => (Raised e, context, self1)
  | (Ok _, self1) => run_loop (loop_bound (max_steps self)) context self1
  end.

Definition run (query : string) (self : PyCallingAgent)
    : RunResult * PyCallingAgent :=
  let '(r, _, self') := run_ctx query self in (r, self').

(** The agent after [add_message], as a function (it is shown below that
    [add_message] never raises). *)
Definition added (message : Message) (self : PyCallingAgent) : PyCallingAgent :=
  snd (add_message message self).

(** The agent after the sandbox was called on [code]. *)
Definition executed (code : string) (rt' : RuntimeState)
    (self : PyCallingAgent) : PyCallingAgent :=
  record_call (Execute code) (set_runtime rt' self).

(** The agent after the model was called on [msgs]. *)
Definition called (msgs : list TransportMessage) (m' : ModelState)
    (self : PyCallingAgent) : PyCallingAgent :=
  record_call (CallModel msgs) (set_model m' self).

(** The agent after [_initialize_conversation]. *)
Definition initialized (user_query : string) (self : PyCallingAgent)
    : PyCallingAgent :=
  snd (_initialize_conversation user_query self).

End Engine.

(** ** Streaming *)

Section Streaming.
Context {C : Collaborators}.

(** A point at which an async generator is suspended: the event it yields,
    and the context and the agent as they are at that moment (what the
    consumer sees when it looks at [context.is_running] after the event). *)
Record Yield := mkYield {
  y_event : Event;
  y_context : ExecutionContext.t;
  y_self : PyCallingAgent
}.

(** An async generator run to its end: the points at which it yielded, how it
    ended (it returned, or an exception left it), and the context and agent
    it leaves. *)
Record Generated := mkGen {
  yields : list Yield;
  g_end : Result unit;
  g_context : ExecutionContext.t;
  g_self : PyCallingAgent
}.

(** The [for segment in parsed_segments] loop of [_stream_step_execution]. *)
Definition segment_events (parsed_segments : list Segment) : list Event :=
  flat_map
    (fun segment =>
       match seg_type segment with
       | SEG_TEXT => [mkEvent TEXT (seg_content segment)]
       | SEG_CODE => [mkEvent CODE (seg_content segment)]
       end)
    parsed_segments.

(** The [async for chunk in self.model.stream(...)] loop: the events yielded
    for the chunks, in order. *)
Fixpoint stream_chunks (parser : ParserState) (chunks : list string)
    : list Event :=
  match chunks with
  | [] => []
  | chunk :: rest =>
      let '(parsed_segments, parser') := process_chunk parser chunk in
      segment_events parsed_segments ++ stream_chunks parser' rest
  end.

(** [_process_model_response_streaming] *)
Definition _process_model_response_streaming (model_response : string)
    (context : ExecutionContext.t) (self : PyCallingAgent) : Generated :=
  let code_snippet := extract_python_code model_response in
  if negb (truthy code_snippet) then
    match add_message (AssistantMessage model_response) self with
    | (Raise e, self1) => mkGen [] (Raise e) context self1
    | (Ok _, self1) =>
        let context1 := ExecutionContext.complete context in
        mkGen [mkYield (mkEvent FINAL_RESPONSE model_response) context1 self1]
          (Ok tt) context1 self1
    end
  else
    match add_message (CodeExecutionMessage model_response) self with
    | (Raise e, self1) => mkGen [] (Raise e) context self1
    | (Ok _, self1) =>
        match
          (do execution_result <- execute (default "" code_snippet) ;;
           let next_prompt := format_next_step_prompt execution_result in
           do_ add_message (ExecutionResultMessage next_prompt) ;;
           ret execution_result) self1
        with
        | (Ok execution_result, self2) =>
            mkGen
              [mkYield (mkEvent EV_EXECUTION_RESULT execution_result)
                 context self2]
              (Ok tt) context self2
        | (Raise e, self2) =>
            let error_msg := exn_str e in
            let retry_prompt := retry_prompt_of error_msg in
            match add_message (ExecutionResultMessage retry_prompt) self2 with
            | (Raise e', self3) => mkGen [] (Raise e') context self3
            | (Ok _, self3) =>
                mkGen
                  [mkYield (mkEvent EV_EXECUTION_ERROR error_msg) context self3]
                  (Ok tt) context self3
            end
        end
    end.

(** [_stream_step_execution].  The model's stream is taken as a whole: the
    agent seen at the yields of the chunk loop already has the model's state
    after the stream. *)
Definition _stream_step_execution (context : ExecutionContext.t)
    (self : PyCallingAgent) : Generated :=
  let msgs := Store._prepare_messages (messages self) in
  let '((chunks, raised), m') := model_stream (model self) msgs in
  let self1 := record_call (StreamModel msgs) (set_model m' self) in
  let chunk_yields :=
    map (fun ev => mkYield ev context self1)
        (stream_chunks parser_new chunks) in
  match raised with
  | Some e => mkGen chunk_yields (Raise e) context self1
  | None =>
      let model_response := String.concat "" chunks in
      let g := _process_model_response_streaming model_response context self1 in
      mkGen (chunk_yields ++ yields g) (g_end g) (g_context g) (g_self g)
  end.

(** The inner loop of [stream_events],
    [async for event in ...: yield event; if not context.is_running: return]:
    the events passed on, and the yield at which the [return] was taken, if
    it was. *)
Fixpoint forward (ys : list Yield) : list Event * option Yield :=
  match ys with
  | [] => ([], None)
  | y :: ys' =>
      if negb (ExecutionContext.is_running (y_context y))
      then ([y_event y], Some y)
      else let '(evs, stop) := forward ys' in (y_event y :: evs, stop)
  end.

(** How the generator [stream_events] ends; [StreamOutOfFuel] as
    [OutOfFuel] above. *)
Inductive StreamEnd :=
| StreamReturned
| StreamRaised (e : Exn)
| StreamOutOfFuel.

(** The [while context.is_running] loop of [stream_events], consumed to the
    end: all events yielded, in order. *)
Fixpoint stream_loop (fuel : nat) (context : ExecutionContext.t)
    (self : PyCallingAgent)
    : list Event * StreamEnd * ExecutionContext.t * PyCallingAgent :=
  match fuel with
  | O => ([], StreamOutOfFuel, context, self)
  | S fuel' =>
      if ExecutionContext.is_running context then
        let '(ok, context1) := ExecutionContext.next_step context in
        if negb ok then
          ([mkEvent EV_MAX_STEPS_REACHED "Max steps reached"],
           StreamReturned, context1, self)
        else
          let g := _stream_step_execution context1 self in
          match forward (yields g) with
          | (evs, Some y) => (evs, StreamReturned, y_context y, y_self y)
          | (evs, None) =>
              match g_end g with
              | Raise e => (evs, StreamRaised e, g_context g, g_self g)
              | Ok _ =>
                  let '(evs', r, context', self') :=
                    stream_loop fuel' (g_context g) (g_self g) in
                  (evs ++ evs', r, context', self')
              end
          end
      else ([], StreamReturned, context, self)
  end.

(** [stream_events] *)
Definition stream_events (query : string) (self : PyCallingAgent)
    : list Event * StreamEnd * ExecutionContext.t * PyCallingAgent :=
  let context := ExecutionContext.init (max_steps self) in
  let context := ExecutionContext.start context in
  match _initialize_conversation query self with
  | (Raise e, self1) => ([], StreamRaised e, context, self1)
  | (Ok _, self1) => stream_loop (loop_bound (max_steps self)) context self1
  end.

(** The event types after which the spec says the sequence ends. *)
Definition is_terminal (e : Event) : bool :=
  match ev_type e with
  | FINAL_RESPONSE | EV_MAX_STEPS_REACHED => true
  | _ => false
  end.

(** No event follows a terminal one: an event of terminal type can only be
    the last of the sequence. *)
Definition nothing_after_terminal (evs : list Event) : Prop :=
  forall (i : nat) (ev : Event),
    evs !! i = Some ev -> is_terminal ev = true -> S i = length evs.

(** What the consumer of a step's generator relies on: the context seen at
    a yield has stopped running exactly when the event is a terminal one. *)
Definition yield_ok (y : Yield) : Prop :=
  is_terminal (y_event y) = negb (ExecutionContext.is_running (y_context y)).

End Streaming.

(** ** The incremental segmenter *)

Module StreamingTextParser.

(** Modelled from the spec: the module [streaming_text_parser] (the class
    [StreamingTextParser] and its [process_chunk]) is not part of the
    sources at hand.  What follows is section 4.4 of the specification: four
    states, a buffer for the text or code body seen since the last marker, a
    buffer for a partial marker at the end of the input seen so far, and a
    scan of "the concatenation of buffered-partial-marker bytes and the new
    chunk".  The marker tokens themselves are parameters.  Text is a list of
    characters here; [process_chunk] and [flush] below convert at the
    boundary. *)
Inductive State :=
| OUTSIDE_CODE
| ENTERING_CODE
| INSIDE_CODE
| EXITING_CODE.

Record t := mkParser {
  state : State;
  buffer : list ascii;
  partial : list ascii
}.

(** Whether the parser is past an opening marker that has not been closed. *)
Definition in_code (s : State) : bool :=
  match s with
  | INSIDE_CODE | EXITING_CODE => true
  | OUTSIDE_CODE | ENTERING_CODE => false
  end.

(** The state for a side of the fence and the partial marker held back. *)
Definition state_of (inside : bool) (held : list ascii) : State :=
  match inside, held with
  | false, [] => OUTSIDE_CODE
  | false, _ :: _ => ENTERING_CODE
  | true, [] => INSIDE_CODE
  | true, _ :: _ => EXITING_CODE
  end.

(** [data.startswith(marker)], returning what follows the marker. *)
Fixpoint strip_prefix (marker data : list ascii) : option (list ascii) :=
  match marker, data with
  | [], _ => Some data
  | _ :: _, [] => None
  | m :: marker', d :: data' =>
      if Ascii.eqb m d then strip_prefix marker' data' else None
  end.

(** The first complete marker in [data]: what is before it and after it. *)
Fixpoint find_marker (marker data : list ascii)
    : option (list ascii * list ascii) :=
  match strip_prefix marker data with
  | Some after => Some ([], after)
  | None =>
      match data with
      | [] => None
      | d :: data' =>
          match find_marker marker data' with
          | Some (before, after) => Some (d :: before, after)
          | None => None
          end
      end
  end.

(** [a] is a prefix of [b]. *)
Fixpoint is_prefix (a b : list ascii) : bool :=
  match a, b with
  | [], _ => true
  | _ :: _, [] => false
  | x :: a', y :: b' => Ascii.eqb x y && is_prefix a' b'
  end.

(** Split [data], in which no complete marker occurs, into the part that is
    settled and the longest tail that may still grow into a marker. *)
Fixpoint hold_back (marker data : list ascii) : list ascii * list ascii :=
  match data with
  | [] => ([], [])
  | d :: data' =>
      if is_prefix data marker then ([], data)
      else let '(settled, held) := hold_back marker data' in
           (d :: settled, held)
  end.

(** The segment flushed when a marker is recognized: the text before an
    opening marker if there is any, the code body before a closing marker. *)
Definition emit (inside : bool) (body : list ascii) : list Segment :=
  if inside then [mkSegment SEG_CODE (string_of_list_ascii body)]
  else match body with
       | [] => []
       | _ :: _ => [mkSegment SEG_TEXT (string_of_list_ascii body)]
       end.

(** [settled_ok m settled tail]: no suffix of [settled ++ tail] that starts
    within [settled] is the beginning of the marker or begins with it. *)
Fixpoint settled_ok (m settled tail : list ascii) : Prop :=
  match settled with
  | [] => True
  | c :: s =>
      (is_prefix (settled ++ tail) m = false /\
       strip_prefix m (settled ++ tail) = None) /\
      settled_ok m s tail
  end.

Section Markers.
Variables open_marker close_marker : list ascii.
Hypothesis open_marker_nonempty : (0 < length open_marker)%nat.
Hypothesis close_marker_nonempty : (0 < length close_marker)%nat.

(** [match e with ... end] that remembers the equation. *)
Definition inspect {A} (a : A) : {b | a = b} := exist _ a eq_refl.

(** The marker looked for on each side of the fence. *)
Definition marker_for (inside : bool) : list ascii :=
  if inside then close_marker else open_marker.

(** Modelled from the spec: the scanning algorithm of the absent
    [StreamingTextParser] (section 4.4).  [data] is the buffered partial
    marker followed by the new chunk, [buffer] the body collected before it:
    each complete marker flushes the body as a segment and switches sides;
    when none is left the tail that may still become a marker is held back. *)
Equations? scan (inside : bool) (buffer data : list ascii)
    : list Segment * t by wf (length data) lt :=
  scan inside buffer data with inspect (find_marker (marker_for inside) data) => {
    | exist _ (Some (before, after)) found =>
        let '(segments, parser) := scan (negb inside) [] after in
        (emit inside (buffer ++ before) ++ segments, parser);
    | exist _ None _ =>
        let '(settled, held) := hold_back (marker_for inside) data in
        ([], mkParser (state_of inside held) (buffer ++ settled) held)
  }.
Proof.
  assert (Hm : (0 < length (marker_for inside))%nat)
    by (unfold marker_for; destruct inside; assumption).
  clear scan. revert before after found Hm.
  generalize (marker_for inside) as marker.
  intros marker.
  assert (Hstrip : forall m d r, strip_prefix m d = Some r ->
                     length d = (length m + length r)%nat).
  { induction m as [|x m IH]; intros [|y d] r; simpl; intros H;
      try (inversion H; reflexivity); try discriminate.
    destruct (Ascii.eqb x y); [|discriminate].
    rewrite (IH _ _ H). reflexivity. }
  induction data as [|d data IH]; intros before after Hf Hm; simpl in Hf.
  - destruct marker; [simpl in Hm; lia | discriminate].
  - destruct (strip_prefix marker (d :: data)) as [r|] eqn:Hs.
    + inversion Hf; subst. apply Hstrip in Hs. simpl in *. lia.
    + destruct (find_marker marker data) as [[b a]|] eqn:Hd; [|discriminate].
      inversion Hf; subst. specialize (IH _ _ eq_refl Hm). simpl. lia.
Qed.

(** Modelled from the spec: [process_chunk] of the absent
    [StreamingTextParser], on characters. *)
Definition process_chars (p : t) (chunk : list ascii) : list Segment * t :=
  scan (in_code (state p)) (buffer p) (partial p ++ chunk).

(** Modelled from the spec: [process_chunk(chunk)] of the absent
    [StreamingTextParser]. *)
Definition process_chunk (p : t) (chunk : string) : list Segment * t :=
  process_chars p (list_ascii_of_string chunk).

(** Modelled from the spec: the end-of-stream flush of the absent
    [StreamingTextParser]: whatever is buffered is flushed, as text outside a
    fence and as code inside one. *)
Definition flush (p : t) : list Segment :=
  match buffer p ++ partial p with
  | [] => []
  | rest =>
      [mkSegment (if in_code (state p) then SEG_CODE else SEG_TEXT)
         (string_of_list_ascii rest)]
  end.

(** Feeding chunks in order: the segments of all calls, and the parser. *)
Fixpoint feed (p : t) (chunks : list string) : list Segment * t :=
  match chunks with
  | [] => ([], p)
  | chunk :: rest =>
      let '(segments, p') := process_chunk p chunk in
      let '(segments', p'') := feed p' rest in
      (segments ++ segments', p'')
  end.

(** All segments of a stream: those of the calls, then the flush. *)
Definition segments_of (chunks : list string) : list Segment :=
  let '(segments, p) := feed (mkParser OUTSIDE_CODE [] []) chunks in
  segments ++ flush p.

End Markers.

End StreamingTextParser.

(** ** A closed instance of the collaborators *)

(** A scripted model, a toy sandbox and the segmenter above with Markdown
    fences, to run the engine on concrete inputs. *)
Module Demo.

Definition fence_open : list ascii := list_ascii_of_string "```python".
Definition fence_close : list ascii := list_ascii_of_string "```".

Lemma fence_open_nonempty : (0 < length fence_open)%nat.
Proof. simpl; lia. Qed.

Lemma fence_close_nonempty : (0 < length fence_close)%nat.
Proof. simpl; lia. Qed.

(** A response that begins with an exclamation mark carries the rest as its
    code. *)
Definition demo_extract (response : string) : option string :=
  match response with
  | String "!"%char code => Some code
  | _ => None
  end.

(** The sandbox counts its executions; the code [boom] raises, any other
    code is returned as the result. *)
Definition demo_execute (n : nat) (code : string) : Result string * nat :=
  if String.eqb code "boom"
  then (Raise (Exception "boom failed"), S n)
  else (Ok code, S n).

(** A string cut into chunks of one character. *)
Definition chars (s : string) : list string :=
  map (fun c => String c EmptyString) (list_ascii_of_string s).

(** The model's state is the number of the turn; [reply] is its script. *)
Definition demo (reply : nat -> string) : Collaborators := {|
  ModelState := nat;
  RuntimeState := nat;
  ParserState := StreamingTextParser.t;
  model_call n _ := (Ok (reply n), S n);
  model_stream n _ := ((chars (reply n), None), S n);
  runtime_execute := demo_execute;
  describe_functions _ := "";
  describe_variables _ := "";
  extract_python_code := demo_extract;
  format_system_prompt template _ _ _ _ _ := template;
  format_next_step_prompt result := result;
  parser_new := StreamingTextParser.mkParser StreamingTextParser.OUTSIDE_CODE [] [];
  process_chunk :=
    StreamingTextParser.process_chunk fence_open fence_close
      fence_open_nonempty fence_close_nonempty
|}.

Definition demo_agent (reply : nat -> string) (max_steps max_history : Z)
    (messages : list Message) : @PyCallingAgent (demo reply) :=
  @mkAgent (demo reply) 0%nat "system" max_steps 0%nat "" "" "" messages
    max_history [].

End Demo.

(** ** The message list as a shared object *)

(** Python lists are objects, and [self.messages] and the constructor's
    [messages] argument are references to them.  This module keeps the list
    objects in a heap, so that it shows which of them an operation of the
    agent changes; only the two fields of the agent that the history
    operations use are kept. *)
Module Refs.

Abbreviation loc := positive.
Abbreviation heap := (gmap loc (list Message)).

Record agent := mkAgentRef {
  messages : loc;
  max_history : Z
}.

(** A new list object with the given elements. *)
Definition new_list (l : list Message) (h : heap) : loc * heap :=
  let r := fresh (dom h) in (r, <[r:=l]> h).

(** [__init__]: [self.messages = messages.copy()]. *)
Definition init (messages_arg : loc) (max_history : Z) (h : heap)
    : agent * heap :=
  let '(r, h') := new_list (h !!! messages_arg) h in
  (mkAgentRef r max_history, h').

(** [_trim_history]: when it trims, [self.messages] is bound to a new list;
    an [IndexError] on [self.messages[0]] leaves everything as it is. *)
Definition _trim_history (self : agent) (h : heap) : agent * heap :=
  let l := h !!! messages self in
  if len l >? max_history self then
    match l with
    | [] => (self, h)
    | system_msg :: non_system_messages =>
        let max_non_system_messages := max_history self - 1 in
        let recent_msgs :=
          if len non_system_messages >? max_non_system_messages
          then slice_from (- max_non_system_messages) non_system_messages
          else non_system_messages in
        let '(r, h') := new_list ([system_msg] ++ recent_msgs) h in
        (mkAgentRef r (max_history self), h')
    end
  else (self, h).

(** [add_message]: [self.messages.append(message)] changes the list object
    in place. *)
Definition add_message (message : Message) (self : agent) (h : heap)
    : agent * heap :=
  let h1 := <[messages self := (h !!! messages self) ++ [message]]> h in
  _trim_history self h1.

(** [_update_system_message]: the item assignment and the [insert] both
    change the list object in place. *)
Definition _update_system_message (system_prompt : string) (self : agent)
    (h : heap) : agent * heap :=
  (self,
   <[messages self :=
       Store._update_system_message system_prompt (h !!! messages self)]> h).

(** The operations of an agent on its history. *)
Inductive Op :=
| OpAddMessage (message : Message)
| OpUpdateSystemMessage (system_prompt : string).

Definition apply_op (o : Op) (s : agent * heap) : agent * heap :=
  match o with
  | OpAddMessage message => add_message message (fst s) (snd s)
  | OpUpdateSystemMessage system_prompt =>
      _update_system_message system_prompt (fst s) (snd s)
  end.

Definition apply_ops (ops : list Op) (s : agent * heap) : agent * heap :=
  fold_left (fun s o => apply_op o s) ops s.

(** The same operations on a list value, for comparison. *)
Definition list_op (max_history : Z) (o : Op) (l : list Message)
    : list Message :=
  match o with
  | OpAddMessage message =>
      match Store.add_message max_history message l with
      | Ok l' => l'
      | Raise _ => l ++ [message]
      end
  | OpUpdateSystemMessage system_prompt =>
      Store._update_system_message system_prompt l
  end.

Definition list_ops (max_history : Z) (ops : list Op) (l : list Message)
    : list Message :=
  fold_left (fun l o => list_op max_history o l) ops l.

(** Two agents living in one heap, and operations addressed to one or the
    other. *)
Inductive Who :=
| First
| Second.

Definition apply_op2 (wo : Who * Op) (s : agent * agent * heap)
    : agent * agent * heap :=
  let '(a1, a2, h) := s in
  match fst wo with
  | First => let '(a1', h') := apply_op (snd wo) (a1, h) in (a1', a2, h')
  | Second => let '(a2', h') := apply_op (snd wo) (a2, h) in (a1, a2', h')
  end.

Definition apply_ops2 (ops : list (Who * Op)) (s : agent * agent * heap)
    : agent * agent * heap :=
  fold_left (fun s wo => apply_op2 wo s) ops s.

(** The operations of a trace that are addressed to [w]. *)
Definition ops_of (w : Who) (ops : list (Who * Op)) : list Op :=
  flat_map
    (fun wo =>
       match w, fst wo with
       | First, First | Second, Second => [snd wo]
       | _, _ => []
       end)
    ops.

(** [frames a h a' h' l']: going from agent [a] in heap [h] to agent [a'] in
    heap [h'] touched no list object of [h] other than the one of [a]; the
    list of [a'] is an object of [h'], either that of [a] or a new one, and
    holds [l']. *)
Definition frames (a : agent) (h : heap) (a' : agent) (h' : heap)
    (l' : list Message) : Prop :=
  (messages a' ∈ dom h') /\
  (dom h ⊆ dom h') /\
  (forall r, r ∈ dom h -> r <> messages a -> h' !! r = h !! r) /\
  (messages a' = messages a \/ (messages a' ∉ dom h)) /\
  max_history a' = max_history a /\
  h' !!! messages a' = l'.

End Refs.

(** ** Further notions used in the statements *)

(** [k] calls of [next_step] in a row: the flags returned, in order, and the
    context after the last call. *)
Fixpoint next_steps (k : nat) (c : ExecutionContext.t)
    : list bool * ExecutionContext.t :=
  match k with
  | O => ([], c)
  | S k' =>
      let '(ok, c1) := ExecutionContext.next_step c in
      let '(oks, c2) := next_steps k' c1 in
      (ok :: oks, c2)
  end.

(** The record of calls of a sequence of turns: each turn is one model call,
    followed by at most one sandbox execution. *)
Inductive turns : list Call -> Prop :=
| turns_nil : turns []
| turns_model (l : list Call) (msgs : list TransportMessage) :
    turns l -> turns (l ++ [CallModel msgs])
| turns_model_execute (l : list Call) (msgs : list TransportMessage)
    (code : string) :
    turns l -> turns (l ++ [CallModel msgs; Execute code]).

Section SameState.
Context {C : Collaborators}.

(** Two agents that differ at most in the record of calls. *)
Definition same_state (a b : PyCallingAgent) : Prop :=
  model a = model b /\
  runtime a = runtime b /\
  max_steps a = max_steps b /\
  max_history a = max_history b /\
  messages a = messages b /\
  system_prompt_template a = system_prompt_template b /\
  agent_role a = agent_role b /\
  instructions a = instructions b /\
  additional_context a = additional_context b.

(** The system prompt [build_system_prompt] returns for an agent. *)
Definition system_prompt_of (self : PyCallingAgent) : string :=
  format_system_prompt
    (system_prompt_template self)
    (describe_functions (runtime self))
    (describe_variables (runtime self))
    (agent_role self)
    (instructions self)
    (additional_context self).

(** The event with which a step of the streaming handler ends, read off the
    response and the sandbox's answer. *)
Definition outcome_event (model_response : string) (rt : RuntimeState)
    : Event :=
  let code_snippet := extract_python_code model_response in
  if negb (truthy code_snippet) then mkEvent FINAL_RESPONSE model_response
  else
    match (runtime_execute rt (default "" code_snippet)).1 with
    | Ok execution_result => mkEvent EV_EXECUTION_RESULT execution_result
    | Raise e => mkEvent EV_EXECUTION_ERROR (exn_str e)
    end.

(** The event a streamed run ends on, for the response [run] returns. *)
Definition final_event (r : AgentResponse) : Event :=
  match status r with
  | SUCCESS => mkEvent FINAL_RESPONSE (resp_content r)
  | ST_MAX_STEPS_REACHED => mkEvent EV_MAX_STEPS_REACHED "Max steps reached"
  end.

End SameState.

(** A model client that fails on every call, with the sandbox and the other
    collaborators of [Demo.demo]. *)
Module DemoFailing.

Definition failing : Collaborators := {|
  ModelState := nat;
  RuntimeState := nat;
  ParserState := StreamingTextParser.t;
  model_call n _ := (Raise (Exception "connection refused"), S n);
  model_stream n _ := ((["par"; "tial"], Some (Exception "connection lost")), S n);
  runtime_execute := Demo.demo_execute;
  describe_functions _ := "";
  describe_variables _ := "";
  extract_python_code := Demo.demo_extract;
  format_system_prompt template _ _ _ _ _ := template;
  format_next_step_prompt result := result;
  parser_new := StreamingTextParser.mkParser StreamingTextParser.OUTSIDE_CODE [] [];
  process_chunk :=
    StreamingTextParser.process_chunk Demo.fence_open Demo.fence_close
      Demo.fence_open_nonempty Demo.fence_close_nonempty
|}.

Definition failing_agent (max_steps max_history : Z)
    (messages : list Message) : @PyCallingAgent failing :=
  @mkAgent failing 0%nat "system" max_steps 0%nat "" "" "" messages
    max_history [].

End DemoFailing.

(** * Properties *)

(** ** The execution context *)

(** C4.  The transitions of the execution context: [start] takes INITIALIZED
    to RUNNING with the step count reset to 0; [next_step] in RUNNING below
    the budget increments the count, stays RUNNING and returns true;
    [next_step] in RUNNING at the budget moves to MAX_STEPS_REACHED without
    incrementing and returns false; [complete] in RUNNING moves to COMPLETED;
    and [is_running] holds exactly in RUNNING. *)
Theorem context_state_machine (c : ExecutionContext.t) :
  (ExecutionContext.state c = INITIALIZED ->
     ExecutionContext.start c
     = ExecutionContext.mk (ExecutionContext.max_steps c) 0 RUNNING) /\
  (ExecutionContext.state c = RUNNING ->
   ExecutionContext.total_steps c < ExecutionContext.max_steps c ->
     ExecutionContext.next_step c
     = (true,
        ExecutionContext.mk (ExecutionContext.max_steps c)
          (ExecutionContext.total_steps c + 1) RUNNING)) /\
  (ExecutionContext.state c = RUNNING ->
   ExecutionContext.total_steps c = ExecutionContext.max_steps c ->
     ExecutionContext.next_step c
     = (false,
        ExecutionContext.mk (ExecutionContext.max_steps c)
          (ExecutionContext.total_steps c) MAX_STEPS_REACHED)) /\
  (ExecutionContext.state c = RUNNING ->
     ExecutionContext.complete c
     = ExecutionContext.mk (ExecutionContext.max_steps c)
         (ExecutionContext.total_steps c) COMPLETED) /\
  (ExecutionContext.is_running c = true <-> ExecutionContext.state c = RUNNING).
Proof.
  destruct c as [m n s]; cbn.
  split; [reflexivity | split; [| split; [| split; [reflexivity |]]]].
  - intros Hs Hlt. unfold ExecutionContext.next_step; cbn.
    destruct (Z.geb_spec n m); [lia | now rewrite Hs].
  - intros _ Heq. unfold ExecutionContext.next_step; cbn.
    destruct (Z.geb_spec n m); [reflexivity | lia].
  - unfold ExecutionContext.is_running; cbn. apply bool_decide_eq_true.
Qed.

Lemma context_state_machine_witness :
  let c := ExecutionContext.mk 3 1 RUNNING in
  ExecutionContext.next_step c = (true, ExecutionContext.mk 3 2 RUNNING) /\
  ExecutionContext.next_step (ExecutionContext.mk 3 3 RUNNING)
  = (false, ExecutionContext.mk 3 3 MAX_STEPS_REACHED) /\
  ExecutionContext.start (ExecutionContext.mk 3 7 INITIALIZED)
  = ExecutionContext.mk 3 0 RUNNING /\
  ExecutionContext.complete c = ExecutionContext.mk 3 1 COMPLETED.
Proof.
  cbv zeta. split; [| split; [| split]].
  - apply (context_state_machine (ExecutionContext.mk 3 1 RUNNING));
      [reflexivity | cbn; lia].
  - apply (context_state_machine (ExecutionContext.mk 3 3 RUNNING));
      reflexivity.
  - apply (context_state_machine (ExecutionContext.mk 3 7 INITIALIZED));
      reflexivity.
  - apply (context_state_machine (ExecutionContext.mk 3 1 RUNNING));
      reflexivity.
Defined.

(** ** The message store *)

Section StoreFacts.

Lemma len_app_one (l : list Message) (m : Message) :
  len (l ++ [m]) = len l + 1.
Proof. unfold len. rewrite length_app. simpl. lia. Qed.

(** [l[-k:]] for a positive [k] is the last [k] elements. *)
Lemma slice_from_neg {A} (k : Z) (l : list A) :
  0 < k -> slice_from (- k) l = drop (length l - Z.to_nat k)%nat l.
Proof.
  intros Hk. unfold slice_from.
  destruct (Z.ltb_spec (- k) 0); [|lia].
  f_equal. lia.
Qed.

(** [l[-0:]] is the whole list. *)
Lemma slice_from_zero {A} (l : list A) : slice_from (- 0) l = l.
Proof. reflexivity. Qed.

(** On a list that is not empty [_trim_history] does not raise. *)
Lemma trim_history_cons (N : Z) (s : Message) (l : list Message) :
  exists l', Store._trim_history N (s :: l) = Ok (s :: l').
Proof.
  unfold Store._trim_history.
  destruct (len (s :: l) >? N); eauto.
Qed.

(** [add_message] never raises, and what it stores begins like the list
    it was given when that list is not empty. *)
Lemma add_message_ok (N : Z) (m : Message) (l : list Message) :
  exists l', Store.add_message N m l = Ok l'.
Proof.
  unfold Store.add_message. destruct l as [|s l]; simpl.
  - destruct (trim_history_cons N m []) as [l' H]. eauto.
  - destruct (trim_history_cons N s (l ++ [m])) as [l' H]. eauto.
Qed.

Lemma add_message_head (N : Z) (m s : Message) (l l' : list Message) :
  Store.add_message N m (s :: l) = Ok l' -> head l' = Some s.
Proof.
  unfold Store.add_message. simpl.
  destruct (trim_history_cons N s (l ++ [m])) as [l'' H].
  rewrite H. intros [= <-]. reflexivity.
Qed.

(** With room for at least one message, the message just added is the last
    one stored. *)
Lemma add_message_last (N : Z) (m : Message) (l l' : list Message) :
  1 <= N -> Store.add_message N m l = Ok l' -> last l' = Some m.
Proof.
  intros HN. unfold Store.add_message, Store._trim_history.
  destruct (Z.gtb_spec (len (l ++ [m])) N) as [Hgt|Hle].
  2:{ intros [= <-]. apply last_snoc. }
  destruct l as [|s l]; simpl.
  - unfold len in Hgt. simpl in Hgt. lia.
  - destruct (Z.gtb_spec (len (l ++ [m])) (N - 1)) as [Hgt'|Hle'].
    + intros [= <-].
      destruct (Z.eq_dec N 1) as [->|Hne].
      * change (slice_from (- (1 - 1)) (l ++ [m])) with (l ++ [m]).
        rewrite app_comm_cons. apply last_snoc.
      * rewrite slice_from_neg by lia.
        rewrite length_app. simpl.
        rewrite drop_app_le by lia.
        rewrite app_comm_cons. apply last_snoc.
    + intros [= <-]. rewrite app_comm_cons. apply last_snoc.
Qed.

(** From a budget of two on, the store never holds more than [N] messages
    after [add_message], whatever it held before; and when it trims, it
    keeps the first message and the last [N - 1] of the others, in order. *)
Lemma add_message_bounded (N : Z) (m : Message) (l l' : list Message) :
  2 <= N -> Store.add_message N m l = Ok l' -> len l' <= N.
Proof.
  intros HN. unfold Store.add_message, Store._trim_history.
  destruct (Z.gtb_spec (len (l ++ [m])) N) as [Hgt|Hle].
  2:{ intros [= <-]. exact Hle. }
  destruct l as [|s l]; simpl.
  - unfold len in Hgt. simpl in Hgt. lia.
  - assert (Hlen : len (l ++ [m]) > N - 1).
    { unfold len in *. simpl in Hgt. lia. }
    destruct (Z.gtb_spec (len (l ++ [m])) (N - 1)); [|lia].
    intros [= <-]. rewrite slice_from_neg by lia.
    unfold len in *. simpl. rewrite length_drop. lia.
Qed.

Lemma add_message_trims (N : Z) (m s : Message) (l : list Message) :
  2 <= N -> len (s :: l ++ [m]) > N ->
  Store.add_message N m (s :: l)
  = Ok (s :: drop (length (l ++ [m]) - Z.to_nat (N - 1))%nat (l ++ [m])).
Proof.
  intros HN Hgt. unfold Store.add_message, Store._trim_history. simpl.
  destruct (Z.gtb_spec (len (s :: l ++ [m])) N); [|lia].
  assert (Hlen : len (l ++ [m]) > N - 1).
  { unfold len in *. simpl in Hgt. lia. }
  destruct (Z.gtb_spec (len (l ++ [m])) (N - 1)); [|lia].
  rewrite slice_from_neg by lia. reflexivity.
Qed.

(** [_update_system_message] writes the system message at index 0, and
    [add_message] leaves index 0 where it is. *)
Lemma update_system_message_head (system_prompt : string)
    (l : list Message) :
  head (Store._update_system_message system_prompt l)
  = Some (SystemMessage system_prompt).
Proof.
  unfold Store._update_system_message.
  destruct l as [|m0 l]; [reflexivity|].
  destruct (is_SystemMessage m0); reflexivity.
Qed.

End StoreFacts.

(** With [max_history = 10], a store of the system message and eleven
    others keeps the system message and the last nine. *)
Example twelve_messages_capacity_ten :
  let user := fun n : Z => UserMessage (String (ascii_of_nat (Z.to_nat (64 + n))) "") in
  fold_left
    (fun l n => match Store.add_message 10 (user n) l with
                | Ok l' => l'
                | Raise _ => l
                end)
    [1; 2; 3; 4; 5; 6; 7; 8; 9; 10; 11] [SystemMessage "system"]
  = SystemMessage "system" :: map user [3; 4; 5; 6; 7; 8; 9; 10; 11].
Proof. vm_compute. reflexivity. Qed.

(** C3, at the capacity where the code departs from it.  With
    [max_history = 1] the slice [non_system_messages[-0:]] is the whole list,
    so [add_message] on a store that is not empty trims nothing: the store
    grows past its capacity. *)
Theorem add_message_capacity_one_keeps_all (s m : Message) (l : list Message) :
  Store.add_message 1 m (s :: l) = Ok (s :: l ++ [m]) /\
  len (s :: l ++ [m]) > 1.
Proof.
  split.
  - unfold Store.add_message, Store._trim_history. simpl.
    destruct (Z.gtb_spec (len (s :: l ++ [m])) 1) as [_|_]; [|reflexivity].
    change (1 - 1) with 0.
    destruct (len (l ++ [m]) >? 0); reflexivity.
  - unfold len. simpl. rewrite length_app. simpl. lia.
Qed.

(** ** The step engine *)

Section EngineFacts.
Context {C : Collaborators}.

Lemma truthy_false (code_snippet : option string) :
  truthy code_snippet = false <->
  code_snippet = None \/ code_snippet = Some "".
Proof.
  destruct code_snippet as [s|]; simpl.
  - rewrite negb_false_iff, String.eqb_eq. split.
    + intros ->. now right.
    + intros [H|H]; [discriminate | now inversion H].
  - split; [now left | reflexivity].
Qed.

Lemma truthy_true (code_snippet : option string) :
  truthy code_snippet = true <->
  exists code, code_snippet = Some code /\ code <> "".
Proof.
  destruct code_snippet as [s|]; simpl.
  - rewrite negb_true_iff, String.eqb_neq. split.
    + intros H. eauto.
    + intros (code & [= ->] & H). exact H.
  - split; [discriminate | intros (code & H & _); discriminate].
Qed.

(** [add_message] of the agent does not raise: it stores what
    [Store.add_message] computes and touches nothing else. *)
Lemma agent_add_message (message : Message) (self : PyCallingAgent) :
  exists l,
    Store.add_message (max_history self) message (messages self) = Ok l /\
    add_message message self = (Ok tt, set_messages l self).
Proof.
  destruct (add_message_ok (max_history self) message (messages self))
    as [l Hl].
  exists l. split; [exact Hl|].
  unfold add_message. unfold Store.add_message in Hl. now rewrite Hl.
Qed.

Lemma add_message_added (message : Message) (self : PyCallingAgent) :
  add_message message self = (Ok tt, added message self).
Proof.
  unfold added.
  destruct (agent_add_message message self) as (l & _ & ->). reflexivity.
Qed.

Lemma added_fields (message : Message) (self : PyCallingAgent) :
  model (added message self) = model self /\
  runtime (added message self) = runtime self /\
  max_steps (added message self) = max_steps self /\
  max_history (added message self) = max_history self /\
  calls (added message self) = calls self.
Proof.
  unfold added.
  destruct (agent_add_message message self) as (l & _ & ->).
  repeat split.
Qed.

Lemma added_messages (message : Message) (self : PyCallingAgent) :
  Store.add_message (max_history self) message (messages self)
  = Ok (messages (added message self)).
Proof.
  unfold added.
  destruct (agent_add_message message self) as (l & Hl & ->). exact Hl.
Qed.

Lemma added_last (message : Message) (self : PyCallingAgent) :
  1 <= max_history self ->
  last (messages (added message self)) = Some message.
Proof.
  intros HN. eapply add_message_last; [exact HN | apply added_messages].
Qed.

(** A response without code: the final-answer branch. *)
Lemma process_final (model_response : string) (context : ExecutionContext.t)
    (self : PyCallingAgent) :
  truthy (extract_python_code model_response) = false ->
  _process_model_response model_response context self
  = (Ok (model_response, ExecutionContext.complete context),
     added (AssistantMessage model_response) self).
Proof.
  intros Hf. unfold _process_model_response. rewrite Hf. simpl.
  unfold bind. rewrite add_message_added. reflexivity.
Qed.

(** A response with code whose execution raises. *)
Lemma process_code_error (model_response code : string) (e : Exn)
    (rt' : RuntimeState) (context : ExecutionContext.t)
    (self : PyCallingAgent) :
  extract_python_code model_response = Some code ->
  code <> "" ->
  runtime_execute (runtime self) code = (Raise e, rt') ->
  _process_model_response model_response context self
  = (Ok (failure_of (exn_str e), context),
     added (ExecutionResultMessage (retry_prompt_of (exn_str e)))
       (executed code rt'
          (added (CodeExecutionMessage model_response) self))).
Proof.
  intros Hx Hne Hrun. unfold _process_model_response.
  assert (Ht : truthy (extract_python_code model_response) = true)
    by (apply truthy_true; eauto).
  rewrite Ht, Hx. simpl.
  unfold bind at 1. rewrite add_message_added.
  unfold try_except, bind at 1, execute.
  destruct (added_fields (CodeExecutionMessage model_response) self)
    as (_ & Hrt & _).
  rewrite Hrt, Hrun.
  unfold bind. rewrite add_message_added. reflexivity.
Qed.

(** A response with code whose execution returns. *)
Lemma process_code_ok (model_response code result : string)
    (rt' : RuntimeState) (context : ExecutionContext.t)
    (self : PyCallingAgent) :
  extract_python_code model_response = Some code ->
  code <> "" ->
  runtime_execute (runtime self) code = (Ok result, rt') ->
  _process_model_response model_response context self
  = (Ok (model_response, context),
     added (ExecutionResultMessage (format_next_step_prompt result))
       (executed code rt'
          (added (CodeExecutionMessage model_response) self))).
Proof.
  intros Hx Hne Hrun. unfold _process_model_response.
  assert (Ht : truthy (extract_python_code model_response) = true)
    by (apply truthy_true; eauto).
  rewrite Ht, Hx. simpl.
  unfold bind at 1. rewrite add_message_added.
  unfold try_except, bind at 1, execute.
  destruct (added_fields (CodeExecutionMessage model_response) self)
    as (_ & Hrt & _).
  rewrite Hrt, Hrun.
  unfold bind. rewrite add_message_added. reflexivity.
Qed.

End EngineFacts.

Section RunFacts.
Context {C : Collaborators}.

(** [_process_model_response] never raises; it leaves the context as it is
    when the response has code and completes it when it has none. *)
Lemma process_total (model_response : string) (context : ExecutionContext.t)
    (self : PyCallingAgent) :
  exists out self',
    _process_model_response model_response context self
    = (Ok (out,
           if truthy (extract_python_code model_response)
           then context else ExecutionContext.complete context),
       self') /\
    max_steps self' = max_steps self /\
    max_history self' = max_history self /\
    model self' = model self /\
    model_calls (calls self') = model_calls (calls self).
Proof.
  destruct (truthy (extract_python_code model_response)) eqn:Ht.
  - apply truthy_true in Ht. destruct Ht as (code & Hx & Hne).
    destruct (runtime_execute (runtime self) code) as [[result|e] rt'] eqn:Hrun.
    + rewrite (process_code_ok _ _ _ _ _ _ Hx Hne Hrun).
      do 2 eexists. split; [reflexivity|].
      destruct (added_fields
                  (ExecutionResultMessage (format_next_step_prompt result))
                  (executed code rt'
                     (added (CodeExecutionMessage model_response) self)))
        as (-> & _ & -> & -> & ->).
      destruct (added_fields (CodeExecutionMessage model_response) self)
        as (H1 & _ & H3 & H4 & H5).
      cbn. rewrite H1, H3, H4, H5.
      unfold model_calls. rewrite List.filter_app, length_app. cbn.
      repeat split; lia.
    + rewrite (process_code_error _ _ _ _ _ _ Hx Hne Hrun).
      do 2 eexists. split; [reflexivity|].
      destruct (added_fields
                  (ExecutionResultMessage (retry_prompt_of (exn_str e)))
                  (executed code rt'
                     (added (CodeExecutionMessage model_response) self)))
        as (-> & _ & -> & -> & ->).
      destruct (added_fields (CodeExecutionMessage model_response) self)
        as (H1 & _ & H3 & H4 & H5).
      cbn. rewrite H1, H3, H4, H5.
      unfold model_calls. rewrite List.filter_app, length_app. cbn.
      repeat split; lia.
  - rewrite (process_final _ _ _ Ht).
    do 2 eexists. split; [reflexivity|].
    destruct (added_fields (AssistantMessage model_response) self)
      as (-> & _ & -> & -> & ->).
    repeat split.
Qed.

(** [_execute_step] when the model answers. *)
Lemma execute_step_answer (context : ExecutionContext.t)
    (self : PyCallingAgent) (model_response : string) (m' : ModelState) :
  model_call (model self) (Store._prepare_messages (messages self))
  = (Ok model_response, m') ->
  _execute_step context self
  = _process_model_response model_response context
      (called (Store._prepare_messages (messages self)) m' self).
Proof.
  intros Hm. unfold _execute_step, bind, _prepare_messages, call_model.
  rewrite Hm. reflexivity.
Qed.

(** [_execute_step] when the model client raises. *)
Lemma execute_step_raise (context : ExecutionContext.t)
    (self : PyCallingAgent) (e : Exn) (m' : ModelState) :
  model_call (model self) (Store._prepare_messages (messages self))
  = (Raise e, m') ->
  _execute_step context self
  = (Raise e, called (Store._prepare_messages (messages self)) m' self).
Proof.
  intros Hm. unfold _execute_step, bind, _prepare_messages, call_model.
  rewrite Hm. reflexivity.
Qed.

(** A step changes neither budget nor step count of the context. *)
Lemma execute_step_context (context context' : ExecutionContext.t)
    (self self' : PyCallingAgent) (out : string) :
  _execute_step context self = (Ok (out, context'), self') ->
  ExecutionContext.max_steps context' = ExecutionContext.max_steps context /\
  ExecutionContext.total_steps context' = ExecutionContext.total_steps context.
Proof.
  destruct (model_call (model self) (Store._prepare_messages (messages self)))
    as [[r|e] m'] eqn:Hm.
  - rewrite (execute_step_answer _ _ _ _ Hm).
    destruct (process_total r context
                (called (Store._prepare_messages (messages self)) m' self))
      as (out' & self'' & -> & _).
    intros [= _ <- _].
    destruct (truthy (extract_python_code r)); split; reflexivity.
  - rewrite (execute_step_raise _ _ _ _ Hm). discriminate.
Qed.

(** The loop of [run] ends within the bound used by [run]: it is never cut
    short. *)
Lemma run_loop_total (fuel : nat) (context : ExecutionContext.t)
    (self : PyCallingAgent) :
  (Z.to_nat (ExecutionContext.max_steps context
             - ExecutionContext.total_steps context) < fuel)%nat ->
  (run_loop fuel context self).1.1 <> OutOfFuel.
Proof.
  revert context self.
  induction fuel as [|fuel IH]; intros context self Hlt; [lia|].
  simpl.
  destruct (ExecutionContext.is_running context); [|discriminate].
  unfold ExecutionContext.next_step.
  destruct (Z.geb_spec (ExecutionContext.total_steps context)
              (ExecutionContext.max_steps context)) as [Hge|Hlt'];
    simpl; [discriminate|].
  destruct (_execute_step _ self) as [[[out context2]|e] self2] eqn:Hstep;
    [|discriminate].
  destruct (execute_step_context _ _ _ _ _ Hstep) as [Hmax Htot].
  simpl in Hmax, Htot.
  destruct (ExecutionContext.is_running context2); simpl; [|discriminate].
  apply IH. rewrite Hmax, Htot. lia.
Qed.

Lemma initialize_initialized (user_query : string) (self : PyCallingAgent) :
  _initialize_conversation user_query self
  = (Ok tt, initialized user_query self).
Proof.
  unfold initialized, _initialize_conversation, bind, _update_system_message,
    bind, build_system_prompt.
  rewrite add_message_added. reflexivity.
Qed.

Lemma initialized_fields (user_query : string) (self : PyCallingAgent) :
  model (initialized user_query self) = model self /\
  runtime (initialized user_query self) = runtime self /\
  max_steps (initialized user_query self) = max_steps self /\
  max_history (initialized user_query self) = max_history self /\
  calls (initialized user_query self) = calls self.
Proof.
  unfold initialized, _initialize_conversation, bind, _update_system_message,
    bind, build_system_prompt.
  rewrite add_message_added. simpl.
  match goal with
  | |- context [added ?m ?s] =>
      destruct (added_fields m s) as (-> & -> & -> & -> & ->)
  end.
  repeat split.
Qed.

(** [run] always ends: it returns or raises, for every agent and query. *)
Lemma run_total (query : string) (self : PyCallingAgent) :
  (run query self).1 <> OutOfFuel.
Proof.
  unfold run.
  destruct (run_ctx query self) as [[r c] s] eqn:Hr. simpl.
  unfold run_ctx in Hr. rewrite initialize_initialized in Hr.
  pose proof (run_loop_total (loop_bound (max_steps self))
                (ExecutionContext.start (ExecutionContext.init (max_steps self)))
                (initialized query self)) as Ht.
  rewrite Hr in Ht. apply Ht. unfold loop_bound. simpl. lia.
Qed.

End RunFacts.

Section RunTheorems.
Context {C : Collaborators}.

(** One more iteration of the loop of [run], for a running context under
    its budget whose step leaves it running. *)
Lemma run_loop_continue (fuel : nat) (context context' : ExecutionContext.t)
    (self self' : PyCallingAgent) (out : string) :
  ExecutionContext.is_running context = true ->
  ExecutionContext.total_steps context < ExecutionContext.max_steps context ->
  _execute_step (ExecutionContext.next_step context).2 self
  = (Ok (out, context'), self') ->
  ExecutionContext.is_running context' = true ->
  run_loop (S fuel) context self = run_loop fuel context' self'.
Proof.
  intros Hrun Hlt Hstep Hrun'. simpl. rewrite Hrun.
  revert Hstep. unfold ExecutionContext.next_step.
  destruct (Z.geb_spec (ExecutionContext.total_steps context)
              (ExecutionContext.max_steps context)); [lia|].
  simpl. intros ->. now rewrite Hrun'.
Qed.

(** The last iteration of the loop of [run], for a running context under
    its budget whose step leaves it not running. *)
Lemma run_loop_finish (fuel : nat) (context context' : ExecutionContext.t)
    (self self' : PyCallingAgent) (out : string) :
  ExecutionContext.is_running context = true ->
  ExecutionContext.total_steps context < ExecutionContext.max_steps context ->
  _execute_step (ExecutionContext.next_step context).2 self
  = (Ok (out, context'), self') ->
  ExecutionContext.is_running context' = false ->
  run_loop (S fuel) context self
  = (Returned (Some (mkAgentResponse out SUCCESS
                       (ExecutionContext.total_steps context')
                       (max_steps self'))),
     context', self').
Proof.
  intros Hrun Hlt Hstep Hrun'. simpl. rewrite Hrun.
  revert Hstep. unfold ExecutionContext.next_step.
  destruct (Z.geb_spec (ExecutionContext.total_steps context)
              (ExecutionContext.max_steps context)); [lia|].
  simpl. intros ->. now rewrite Hrun'.
Qed.

Lemma next_step_running (context : ExecutionContext.t) :
  ExecutionContext.is_running context = true ->
  ExecutionContext.total_steps context < ExecutionContext.max_steps context ->
  (ExecutionContext.next_step context).2
  = ExecutionContext.mk (ExecutionContext.max_steps context)
      (ExecutionContext.total_steps context + 1) RUNNING.
Proof.
  intros Hrun Hlt. destruct context as [m n s].
  unfold ExecutionContext.is_running in Hrun.
  apply bool_decide_eq_true in Hrun. cbn in Hrun, Hlt. subst s.
  unfold ExecutionContext.next_step; cbn.
  destruct (Z.geb_spec n m); [lia | reflexivity].
Qed.

(** C2.  A turn in which the sandbox raises: the step handler catches the
    error and returns normally, with the string [Execution failed: ] followed
    by the error text, which is a failure-annotated string in the
    specification's sense; the last message stored is the EXECUTION_RESULT
    message whose content is [Error: ], the error text, a line feed and
    [Please fix the code and try again.], a retry prompt that embeds the
    error text; the context is still RUNNING, and the loop of [run] goes on
    to its next iteration. *)
Theorem execution_error_is_recovered (fuel : nat)
    (context0 : ExecutionContext.t) (self0 : PyCallingAgent)
    (model_response code : string) (m' : ModelState) (e : Exn)
    (rt' : RuntimeState) :
  let msgs := Store._prepare_messages (messages self0) in
  let self := called msgs m' self0 in
  let context := (ExecutionContext.next_step context0).2 in
  let error_msg := exn_str e in
  let retry_prompt :=
    String.append "Error: "
      (String.append error_msg
         (String "010"%char "Please fix the code and try again.")) in
  let failure := String.append "Execution failed: " error_msg in
  let self' :=
    added (ExecutionResultMessage retry_prompt)
      (executed code rt' (added (CodeExecutionMessage model_response) self)) in
  ExecutionContext.is_running context0 = true ->
  ExecutionContext.total_steps context0 < ExecutionContext.max_steps context0 ->
  model_call (model self0) msgs = (Ok model_response, m') ->
  extract_python_code model_response = Some code ->
  code <> "" ->
  runtime_execute (runtime self0) code = (Raise e, rt') ->
  1 <= max_history self0 ->
  _process_model_response model_response context self
  = (Ok (failure, context), self') /\
  spec_failure_annotated error_msg failure /\
  last (messages self') = Some (ExecutionResultMessage retry_prompt) /\
  role (ExecutionResultMessage retry_prompt) = EXECUTION_RESULT /\
  spec_retry_prompt error_msg (content (ExecutionResultMessage retry_prompt)) /\
  ExecutionContext.state context = RUNNING /\
  run_loop (S fuel) context0 self0 = run_loop fuel context self'.
Proof.
  intros msgs self context error_msg retry_prompt failure self'
    Hrun Hlt Hm Hx Hne Hexec HN.
  assert (Hretry : retry_prompt_of (exn_str e) = retry_prompt)
    by reflexivity.
  assert (Hfailure : failure_of (exn_str e) = failure) by reflexivity.
  assert (Hp : _process_model_response model_response context self
               = (Ok (failure, context), self')).
  { unfold self'. rewrite <- Hretry, <- Hfailure.
    apply process_code_error; assumption. }
  assert (Hc : context
               = ExecutionContext.mk (ExecutionContext.max_steps context0)
                   (ExecutionContext.total_steps context0 + 1) RUNNING)
    by (apply next_step_running; assumption).
  split; [exact Hp|].
  split; [exists "Execution failed: "; split; [discriminate | reflexivity]|].
  split; [|split; [reflexivity|split; [|split]]].
  - apply added_last. cbn.
    destruct (added_fields (CodeExecutionMessage model_response) self)
      as (_ & _ & _ & -> & _).
    exact HN.
  - exists "Error: ",
      (String "010"%char "Please fix the code and try again.").
    split; [discriminate|]. split; [discriminate | reflexivity].
  - now rewrite Hc.
  - eapply run_loop_continue; try eassumption.
    + fold context. unfold msgs in Hm.
      rewrite (execute_step_answer _ _ _ _ Hm). exact Hp.
    + rewrite Hc. reflexivity.
Qed.

(** C8.  A response for which the extractor yields no code or an empty code
    body is a final answer for both step handlers: it is stored as an
    ASSISTANT message, the context becomes COMPLETED, and the sandbox is not
    called. *)
Theorem empty_code_is_final_answer (model_response : string)
    (context : ExecutionContext.t) (self : PyCallingAgent) :
  extract_python_code model_response = None \/
  extract_python_code model_response = Some "" ->
  let self' := added (AssistantMessage model_response) self in
  let context' := ExecutionContext.complete context in
  _process_model_response model_response context self
  = (Ok (model_response, context'), self') /\
  _process_model_response_streaming model_response context self
  = mkGen [mkYield (mkEvent FINAL_RESPONSE model_response) context' self']
      (Ok tt) context' self' /\
  ExecutionContext.state context' = COMPLETED /\
  Store.add_message (max_history self) (AssistantMessage model_response)
    (messages self) = Ok (messages self') /\
  (1 <= max_history self ->
   last (messages self') = Some (AssistantMessage model_response)) /\
  calls self' = calls self /\
  runtime self' = runtime self.
Proof.
  intros Hx self' context'. apply truthy_false in Hx.
  destruct (added_fields (AssistantMessage model_response) self)
    as (_ & Hrt & _ & _ & Hcalls).
  repeat split.
  - apply process_final. exact Hx.
  - unfold _process_model_response_streaming. rewrite Hx. simpl.
    rewrite add_message_added. reflexivity.
  - apply added_messages.
  - intros HN. apply added_last. exact HN.
  - exact Hcalls.
  - exact Hrt.
Qed.

(** C6.  When the model's first response has no code, [run] makes one model
    call and returns SUCCESS with one step taken and that response as its
    content; the response is the last message stored, as an ASSISTANT
    message, and the context ends COMPLETED. *)
Theorem first_response_without_code (query : string) (self : PyCallingAgent)
    (model_response : string) (m' : ModelState) :
  let self1 := initialized query self in
  let msgs := Store._prepare_messages (messages self1) in
  1 <= max_steps self ->
  1 <= max_history self ->
  model_call (model self1) msgs = (Ok model_response, m') ->
  truthy (extract_python_code model_response) = false ->
  exists context' self',
    run_ctx query self
    = (Returned (Some (mkAgentResponse model_response SUCCESS 1
                         (max_steps self))),
       context', self') /\
    run query self
    = (Returned (Some (mkAgentResponse model_response SUCCESS 1
                         (max_steps self))),
       self') /\
    ExecutionContext.state context' = COMPLETED /\
    last (messages self') = Some (AssistantMessage model_response) /\
    calls self' = calls self ++ [CallModel msgs].
Proof.
  intros self1 msgs HM HN Hm Hx.
  destruct (initialized_fields query self) as (_ & _ & Hms & Hmh & Hcalls).
  set (self2 := called msgs m' self1).
  set (self' := added (AssistantMessage model_response) self2).
  set (c1 := ExecutionContext.mk (max_steps self) 1 RUNNING).
  assert (Hrun : run_ctx query self
                 = (Returned (Some (mkAgentResponse model_response SUCCESS 1
                                      (max_steps self))),
                    ExecutionContext.complete c1, self')).
  { unfold run_ctx. rewrite initialize_initialized. unfold loop_bound.
    set (c0 := ExecutionContext.start (ExecutionContext.init (max_steps self))).
    assert (Hc1 : (ExecutionContext.next_step c0).2 = c1)
      by (apply next_step_running; [reflexivity | cbn; lia]).
    erewrite (run_loop_finish _ c0 (ExecutionContext.complete c1)
                (initialized query self) self' model_response).
    - cbn. unfold self'.
      destruct (added_fields (AssistantMessage model_response) self2)
        as (_ & _ & -> & _).
      cbn. unfold self1. now rewrite Hms.
    - reflexivity.
    - cbn. lia.
    - rewrite Hc1. fold self1. unfold msgs in Hm.
      rewrite (execute_step_answer _ _ _ _ Hm).
      apply process_final. exact Hx.
    - reflexivity. }
  exists (ExecutionContext.complete c1), self'. split; [exact Hrun|].
  split; [unfold run; now rewrite Hrun|].
  split; [reflexivity|]. split.
  - apply added_last. cbn. unfold self1. now rewrite Hmh.
  - unfold self'.
    destruct (added_fields (AssistantMessage model_response) self2)
      as (_ & _ & _ & _ & ->).
    cbn. unfold self1. now rewrite Hcalls.
Qed.

(** The loop of [run] when every response of the model has code: with [k]
    steps left it makes [k] model calls and ends in MAX_STEPS_REACHED. *)
Lemma run_loop_always_code (k : nat) :
  (forall ms msgs, exists r ms',
      model_call ms msgs = (Ok r, ms') /\
      truthy (extract_python_code r) = true) ->
  forall (context : ExecutionContext.t) (self : PyCallingAgent),
  ExecutionContext.is_running context = true ->
  ExecutionContext.total_steps context + Z.of_nat k
  = ExecutionContext.max_steps context ->
  exists context' self',
    run_loop (S k) context self
    = (Returned (Some (mkAgentResponse "" ST_MAX_STEPS_REACHED
                         (ExecutionContext.max_steps context)
                         (max_steps self))),
       context', self') /\
    ExecutionContext.state context' = MAX_STEPS_REACHED /\
    ExecutionContext.total_steps context' = ExecutionContext.max_steps context /\
    model_calls (calls self') = (model_calls (calls self) + k)%nat.
Proof.
  intros Hcode. induction k as [|k IH]; intros context self Hrun Htot.
  - exists (ExecutionContext.mk (ExecutionContext.max_steps context)
              (ExecutionContext.total_steps context) MAX_STEPS_REACHED), self.
    cbn [run_loop]. rewrite Hrun. unfold ExecutionContext.next_step.
    destruct (Z.geb_spec (ExecutionContext.total_steps context)
                (ExecutionContext.max_steps context)); [|lia].
    cbn. replace (ExecutionContext.total_steps context)
      with (ExecutionContext.max_steps context) by lia.
    repeat split. lia.
  - assert (Hlt : ExecutionContext.total_steps context
                  < ExecutionContext.max_steps context) by lia.
    pose proof (next_step_running context Hrun Hlt) as Hc1.
    set (msgs := Store._prepare_messages (messages self)).
    destruct (Hcode (model self) msgs) as (r & ms' & Hm & Ht).
    destruct (process_total r (ExecutionContext.next_step context).2
                (called msgs ms' self))
      as (out & self2 & Hp & Hms & _ & _ & Hmc).
    rewrite Ht in Hp.
    assert (Hstep : _execute_step (ExecutionContext.next_step context).2 self
                    = (Ok (out, (ExecutionContext.next_step context).2), self2)).
    { unfold msgs in Hm. rewrite (execute_step_answer _ _ _ _ Hm). exact Hp. }
    rewrite (run_loop_continue (S k) _ _ _ _ _ Hrun Hlt Hstep)
      by (rewrite Hc1; reflexivity).
    destruct (IH (ExecutionContext.next_step context).2 self2)
      as (context' & self' & Hloop & Hst & Htot' & Hcalls).
    { rewrite Hc1. reflexivity. }
    { rewrite Hc1. cbn. lia. }
    exists context', self'. rewrite Hloop, Hms, Hc1. cbn.
    split; [reflexivity|]. split; [exact Hst|].
    split; [rewrite Htot', Hc1; reflexivity|].
    rewrite Hcalls, Hmc. unfold model_calls. cbn.
    rewrite List.filter_app, length_app. cbn. lia.
Qed.

(** C1.  With a step budget [M >= 1] and a model whose every response has
    code, [run] returns MAX_STEPS_REACHED with [steps_taken = M], after
    exactly [M] model calls. *)
Theorem always_code_exhausts_budget (query : string) (self : PyCallingAgent)
    (M : Z) :
  max_steps self = M ->
  1 <= M ->
  (forall ms msgs, exists r ms',
      model_call ms msgs = (Ok r, ms') /\
      truthy (extract_python_code r) = true) ->
  exists context' self',
    run_ctx query self
    = (Returned (Some (mkAgentResponse "" ST_MAX_STEPS_REACHED M M)),
       context', self') /\
    run query self
    = (Returned (Some (mkAgentResponse "" ST_MAX_STEPS_REACHED M M)), self') /\
    ExecutionContext.state context' = MAX_STEPS_REACHED /\
    model_calls (calls self') = (model_calls (calls self) + Z.to_nat M)%nat.
Proof.
  intros HM Hpos Hcode.
  destruct (initialized_fields query self) as (_ & _ & Hms & _ & Hcalls).
  destruct (run_loop_always_code (Z.to_nat M) Hcode
              (ExecutionContext.start (ExecutionContext.init (max_steps self)))
              (initialized query self))
    as (context' & self' & Hloop & Hst & _ & Hmc).
  { reflexivity. }
  { cbn. lia. }
  assert (Hrun : run_ctx query self
                 = (Returned (Some (mkAgentResponse "" ST_MAX_STEPS_REACHED
                                      M M)),
                    context', self')).
  { unfold run_ctx. rewrite initialize_initialized.
    unfold loop_bound. rewrite HM. rewrite HM in Hloop.
    rewrite Hloop. cbn. rewrite Hms, HM. reflexivity. }
  exists context', self'. split; [exact Hrun|].
  split; [unfold run; now rewrite Hrun|].
  split; [exact Hst|]. now rewrite Hmc, Hcalls.
Qed.

End RunTheorems.

(** ** The event stream *)

Section StreamFacts.
Context {C : Collaborators}.

Lemma segment_events_not_terminal (segments : list Segment) :
  Forall (fun ev => is_terminal ev = false) (segment_events segments).
Proof.
  induction segments as [|sg segments IH]; simpl; [constructor|].
  apply Forall_app. split; [|exact IH].
  destruct (seg_type sg); repeat constructor.
Qed.

Lemma stream_chunks_not_terminal (chunks : list string) (parser : ParserState) :
  Forall (fun ev => is_terminal ev = false) (stream_chunks parser chunks).
Proof.
  revert parser.
  induction chunks as [|chunk chunks IH]; intros parser; simpl; [constructor|].
  destruct (process_chunk parser chunk) as [segments parser'].
  apply Forall_app. split; [apply segment_events_not_terminal | apply IH].
Qed.

(** Every yield of the streaming handler started on a running context is
    as the consumer expects. *)
Lemma process_streaming_yields (model_response : string)
    (context : ExecutionContext.t) (self : PyCallingAgent) :
  ExecutionContext.is_running context = true ->
  Forall yield_ok
    (yields (_process_model_response_streaming model_response context self)).
Proof.
  intros Hrun. unfold _process_model_response_streaming.
  destruct (negb (truthy (extract_python_code model_response))).
  - rewrite add_message_added. repeat constructor.
  - rewrite add_message_added.
    match goal with
    | |- context [match ?m ?s with _ => _ end] =>
        destruct (m s) as [[result|e] self2]
    end.
    + repeat constructor. unfold yield_ok. cbn. now rewrite Hrun.
    + rewrite add_message_added. repeat constructor.
      unfold yield_ok. cbn. now rewrite Hrun.
Qed.

Lemma stream_step_yields (context : ExecutionContext.t)
    (self : PyCallingAgent) :
  ExecutionContext.is_running context = true ->
  Forall yield_ok (yields (_stream_step_execution context self)).
Proof.
  intros Hrun. unfold _stream_step_execution.
  destruct (model_stream (model self) (Store._prepare_messages (messages self)))
    as [[chunks raised] m'].
  assert (Hchunks :
    forall s, Forall yield_ok
      (map (fun ev => mkYield ev context s) (stream_chunks parser_new chunks))).
  { intros s. apply Forall_map.
    eapply Forall_impl; [apply stream_chunks_not_terminal|].
    intros ev Hev. unfold yield_ok. cbn. now rewrite Hev, Hrun. }
  destruct raised as [e|]; cbn.
  - apply Hchunks.
  - apply Forall_app. split; [apply Hchunks|].
    apply process_streaming_yields. exact Hrun.
Qed.

(** The inner loop of [stream_events] on such yields: it stops right after a
    terminal event, and passes on only other events when it does not stop. *)
Lemma forward_spec (ys : list Yield) :
  Forall yield_ok ys ->
  nothing_after_terminal (forward ys).1 /\
  ((forward ys).2 = None ->
   Forall (fun ev => is_terminal ev = false) (forward ys).1) /\
  (forall y, (forward ys).2 = Some y ->
     ExecutionContext.is_running (y_context y) = false).
Proof.
  induction 1 as [|y ys Hy _ IH]; simpl.
  - split; [|split].
    + intros i ev Hi. destruct i; discriminate.
    + constructor.
    + discriminate.
  - destruct (ExecutionContext.is_running (y_context y)) eqn:Hrun; simpl.
    + destruct (forward ys) as [evs stop]. simpl in *.
      destruct IH as (IH1 & IH2 & IH3).
      unfold yield_ok in Hy. rewrite Hrun in Hy. simpl in Hy.
      split; [|split].
      * intros [|i] ev Hi Ht; simpl in Hi.
        -- inversion Hi; subst. congruence.
        -- simpl. f_equal. eapply IH1; eassumption.
      * intros Hs. constructor; [exact Hy | apply IH2, Hs].
      * exact IH3.
    + split; [|split].
      * intros [|i] ev Hi Ht; simpl in Hi; [reflexivity|].
        destruct i; discriminate.
      * discriminate.
      * intros y' [= <-]. exact Hrun.
Qed.

Lemma nothing_after_terminal_app (evs evs' : list Event) :
  Forall (fun ev => is_terminal ev = false) evs ->
  nothing_after_terminal evs' ->
  nothing_after_terminal (evs ++ evs').
Proof.
  intros Hevs Hevs' i ev Hi Ht.
  rewrite length_app.
  destruct (lookup_app_Some evs evs' i ev) as [[Hl|[Hge Hr]] _]; [exact Hi| |].
  - rewrite Forall_lookup in Hevs. specialize (Hevs _ _ Hl). congruence.
  - specialize (Hevs' _ _ Hr Ht). lia.
Qed.

(** The loop of [stream_events]: no event follows a terminal one, and after
    a terminal event the generator has returned. *)
Lemma stream_loop_spec (fuel : nat) (context : ExecutionContext.t)
    (self : PyCallingAgent) :
  nothing_after_terminal (stream_loop fuel context self).1.1.1 /\
  (Exists (fun ev => is_terminal ev = true)
     (stream_loop fuel context self).1.1.1 ->
   (stream_loop fuel context self).1.1.2 = StreamReturned).
Proof.
  revert context self.
  induction fuel as [|fuel IH]; intros context self; simpl.
  - split; [intros i ev Hi; destruct i; discriminate|].
    intros H. inversion H.
  - destruct (ExecutionContext.is_running context) eqn:Hrun; simpl.
    2:{ split; [intros i ev Hi; destruct i; discriminate|].
        intros H. inversion H. }
    unfold ExecutionContext.next_step.
    destruct (Z.geb_spec (ExecutionContext.total_steps context)
                (ExecutionContext.max_steps context)); simpl.
    { split; [|reflexivity].
      intros [|i] ev Hi _; simpl in Hi; [reflexivity|].
      destruct i; discriminate. }
    set (context1 := ExecutionContext.mk _ _ _).
    assert (Hrun1 : ExecutionContext.is_running context1 = true) by exact Hrun.
    pose proof (forward_spec _ (stream_step_yields context1 self Hrun1))
      as (F1 & F2 & F3).
    destruct (forward (yields (_stream_step_execution context1 self)))
      as [evs [y|]]; simpl in *.
    { split; [exact F1 | reflexivity]. }
    specialize (F2 eq_refl).
    destruct (g_end (_stream_step_execution context1 self)) as [[]|e]; simpl.
    + specialize (IH (g_context (_stream_step_execution context1 self))
                     (g_self (_stream_step_execution context1 self))).
      destruct (stream_loop fuel _ _) as [[[evs' r] c'] s']. simpl in *.
      destruct IH as [IH1 IH2]. split.
      * apply nothing_after_terminal_app; assumption.
      * intros Hex. apply Exists_app in Hex. destruct Hex as [Hex|Hex].
        -- apply Exists_exists in Hex. destruct Hex as (ev & Hin & Ht).
           rewrite Forall_forall in F2. specialize (F2 _ Hin). congruence.
        -- apply IH2, Hex.
    + split.
      * rewrite <- (app_nil_r evs).
        apply nothing_after_terminal_app; [exact F2|].
        intros i ev Hi. destruct i; discriminate.
      * intros Hex. apply Exists_exists in Hex. destruct Hex as (ev & Hin & Ht).
        rewrite Forall_forall in F2. specialize (F2 _ Hin). congruence.
Qed.

(** A streaming step changes neither budget nor step count of the
    context. *)
Lemma process_streaming_context (model_response : string)
    (context : ExecutionContext.t) (self : PyCallingAgent) :
  let g := _process_model_response_streaming model_response context self in
  ExecutionContext.max_steps (g_context g) = ExecutionContext.max_steps context /\
  ExecutionContext.total_steps (g_context g)
  = ExecutionContext.total_steps context.
Proof.
  unfold _process_model_response_streaming.
  destruct (negb (truthy (extract_python_code model_response))).
  - rewrite add_message_added. split; reflexivity.
  - rewrite add_message_added.
    match goal with
    | |- context [match ?m ?s with _ => _ end] =>
        destruct (m s) as [[result|e] self2]
    end.
    + split; reflexivity.
    + rewrite add_message_added. split; reflexivity.
Qed.

Lemma stream_step_context (context : ExecutionContext.t)
    (self : PyCallingAgent) :
  let g := _stream_step_execution context self in
  ExecutionContext.max_steps (g_context g) = ExecutionContext.max_steps context /\
  ExecutionContext.total_steps (g_context g)
  = ExecutionContext.total_steps context.
Proof.
  unfold _stream_step_execution.
  destruct (model_stream (model self) (Store._prepare_messages (messages self)))
    as [[chunks raised] m'].
  destruct raised as [e|]; cbn [g_context].
  - split; reflexivity.
  - apply process_streaming_context.
Qed.

(** The loop of [stream_events] ends within the bound used by
    [stream_events]. *)
Lemma stream_loop_total (fuel : nat) (context : ExecutionContext.t)
    (self : PyCallingAgent) :
  (Z.to_nat (ExecutionContext.max_steps context
             - ExecutionContext.total_steps context) < fuel)%nat ->
  (stream_loop fuel context self).1.1.2 <> StreamOutOfFuel.
Proof.
  revert context self.
  induction fuel as [|fuel IH]; intros context self Hlt; [lia|].
  simpl.
  destruct (ExecutionContext.is_running context); [|discriminate].
  unfold ExecutionContext.next_step.
  destruct (Z.geb_spec (ExecutionContext.total_steps context)
              (ExecutionContext.max_steps context)) as [Hge|Hlt'];
    simpl; [discriminate|].
  set (context1 := ExecutionContext.mk _ _ _).
  pose proof (stream_step_context context1 self) as [Hmax Htot].
  destruct (forward (yields (_stream_step_execution context1 self)))
    as [evs [y|]]; [discriminate|].
  destruct (g_end (_stream_step_execution context1 self)) as [[]|e];
    [|discriminate].
  specialize (IH (g_context (_stream_step_execution context1 self))
                 (g_self (_stream_step_execution context1 self))).
  destruct (stream_loop fuel _ _) as [[[evs' r] c'] s']. simpl in *.
  apply IH. rewrite Hmax, Htot. lia.
Qed.

(** C9.  In the events of [stream_events], an event of type FINAL_RESPONSE
    or MAX_STEPS_REACHED is the last one, and the generator has returned
    after it; the sequence is complete (the loop is not cut short). *)
Theorem no_event_after_terminal (query : string) (self : PyCallingAgent) :
  nothing_after_terminal (stream_events query self).1.1.1 /\
  (Exists (fun ev => is_terminal ev = true) (stream_events query self).1.1.1 ->
   (stream_events query self).1.1.2 = StreamReturned) /\
  (stream_events query self).1.1.2 <> StreamOutOfFuel.
Proof.
  unfold stream_events. rewrite initialize_initialized.
  destruct (stream_loop_spec (loop_bound (max_steps self))
              (ExecutionContext.start (ExecutionContext.init (max_steps self)))
              (initialized query self)) as [H1 H2].
  split; [exact H1|]. split; [exact H2|].
  apply stream_loop_total. unfold loop_bound. simpl. lia.
Qed.

End StreamFacts.

(** ** Serialization *)

Section Serialization.
Context {C : Collaborators}.

(** The lookup in [role_conversions] is the mapping of the specification. *)
Lemma role_conversions_spec (r : MessageRole) :
  dict_get role_conversions r r = spec_role_mapping r.
Proof. destruct r; reflexivity. Qed.

(** C5.  Serializing the stored messages keeps their number, order and
    content strings and changes only the role, by the mapping CODE_EXECUTION
    to ASSISTANT, EXECUTION_RESULT to USER, others unchanged; the agent and
    with it the stored messages and their roles are left as they were. *)
Theorem prepare_messages_remaps_roles_only (self : PyCallingAgent) :
  _prepare_messages self = (Ok (Store._prepare_messages (messages self)), self) /\
  map t_content (Store._prepare_messages (messages self))
  = map content (messages self) /\
  map t_role (Store._prepare_messages (messages self))
  = map (fun m => role_value (spec_role_mapping (role m))) (messages self) /\
  spec_role_mapping CODE_EXECUTION = ASSISTANT /\
  spec_role_mapping EXECUTION_RESULT = USER /\
  (forall r, r <> CODE_EXECUTION -> r <> EXECUTION_RESULT ->
     spec_role_mapping r = r).
Proof.
  split; [reflexivity|].
  split; [|split; [|split; [reflexivity|split; [reflexivity|]]]].
  - unfold Store._prepare_messages. rewrite map_map. reflexivity.
  - unfold Store._prepare_messages. rewrite map_map.
    apply map_ext. intros m. cbn [t_role]. now rewrite role_conversions_spec.
  - intros r H1 H2. destruct r; try reflexivity; congruence.
Qed.

End Serialization.

(** ** The incremental segmenter *)

Section SegmenterFacts.
Import StreamingTextParser.

Lemma strip_prefix_length (m d r : list ascii) :
  strip_prefix m d = Some r -> length d = (length m + length r)%nat.
Proof.
  revert d r. induction m as [|x m IH]; intros [|y d] r; simpl; intros H;
    try (inversion H; reflexivity); try discriminate.
  destruct (Ascii.eqb x y); [|discriminate].
  rewrite (IH _ _ H). reflexivity.
Qed.

Lemma strip_prefix_app (m d r x : list ascii) :
  strip_prefix m d = Some r -> strip_prefix m (d ++ x) = Some (r ++ x).
Proof.
  revert d r. induction m as [|k m IH]; intros d r; simpl.
  - intros [= <-]. reflexivity.
  - destruct d as [|c d]; [discriminate|]. simpl.
    destruct (Ascii.eqb k c); [apply IH | discriminate].
Qed.

Lemma is_prefix_length (a b : list ascii) :
  is_prefix a b = true -> (length a <= length b)%nat.
Proof.
  revert b. induction a as [|x a IH]; intros [|y b]; simpl; try lia;
    try discriminate.
  intros H. apply andb_true_iff in H. destruct H as [_ H].
  specialize (IH _ H). lia.
Qed.

(** A text that neither is the beginning of the marker nor begins with it
    stays so, whatever follows it. *)
Lemma apart_app (m x y : list ascii) :
  is_prefix x m = false -> strip_prefix m x = None ->
  is_prefix (x ++ y) m = false /\ strip_prefix m (x ++ y) = None.
Proof.
  revert m. induction x as [|c x IH]; intros m Hp Hs.
  - discriminate.
  - destruct m as [|k m]; [discriminate|]. simpl in *.
    destruct (Ascii.eqb_spec k c) as [->|Hne].
    + rewrite Ascii.eqb_refl in *. simpl in *. apply IH; assumption.
    + split; [|reflexivity].
      destruct (Ascii.eqb_spec c k); [congruence | reflexivity].
Qed.

Lemma find_marker_length (m d b a : list ascii) :
  find_marker m d = Some (b, a) ->
  length d = (length b + length m + length a)%nat.
Proof.
  revert b a. induction d as [|c d IH]; intros b a; simpl.
  - destruct (strip_prefix m []) as [r|] eqn:Hs; [|discriminate].
    intros [= <- <-]. apply strip_prefix_length in Hs. simpl in *. lia.
  - destruct (strip_prefix m (c :: d)) as [r|] eqn:Hs.
    + intros [= <- <-]. apply strip_prefix_length in Hs. simpl in *. lia.
    + destruct (find_marker m d) as [[b' a']|]; [|discriminate].
      intros [= <- <-]. specialize (IH _ _ eq_refl). simpl. lia.
Qed.

(** The first marker of a text is still the first when more text follows. *)
Lemma find_marker_app (m d b a x : list ascii) :
  find_marker m d = Some (b, a) ->
  find_marker m (d ++ x) = Some (b, a ++ x).
Proof.
  revert b a. induction d as [|c d IH]; intros b a; simpl.
  - destruct m as [|k m]; simpl; [|discriminate].
    intros [= <- <-]. destruct x; reflexivity.
  - destruct (strip_prefix m (c :: d)) as [r|] eqn:Hs.
    + intros [= <- <-].
      change (c :: d ++ x) with ((c :: d) ++ x).
      now rewrite (strip_prefix_app _ _ _ x Hs).
    + destruct (find_marker m d) as [[b' a']|] eqn:Hf; [|discriminate].
      intros [= <- <-].
      assert (Hp : is_prefix (c :: d) m = false).
      { destruct (is_prefix (c :: d) m) eqn:Hp; [|reflexivity].
        apply is_prefix_length in Hp. apply find_marker_length in Hf.
        simpl in Hp. lia. }
      destruct (apart_app m (c :: d) x Hp Hs) as [_ Hs'].
      change (c :: d ++ x) with ((c :: d) ++ x). rewrite Hs'.
      now rewrite (IH _ _ eq_refl).
Qed.

Lemma find_marker_none_tail (m : list ascii) (c : ascii) (d : list ascii) :
  find_marker m (c :: d) = None ->
  strip_prefix m (c :: d) = None /\ find_marker m d = None.
Proof.
  simpl. destruct (strip_prefix m (c :: d)); [discriminate|].
  destruct (find_marker m d) as [[b a]|]; [discriminate|]. now split.
Qed.

(** What [hold_back] settles is settled, and what it holds back is the
    beginning of a marker. *)
Lemma hold_back_spec (m d settled held : list ascii) :
  find_marker m d = None ->
  hold_back m d = (settled, held) ->
  d = settled ++ held /\ settled_ok m settled held /\
  is_prefix held m = true.
Proof.
  revert settled. induction d as [|c d IH]; intros settled Hf;
    cbn [hold_back].
  - intros [= <- <-]. repeat split.
  - destruct (is_prefix (c :: d) m) eqn:Hp.
    + intros [= <- <-]. repeat split. exact Hp.
    + destruct (hold_back m d) as [s' h'] eqn:Hh.
      intros [= <- <-].
      destruct (find_marker_none_tail _ _ _ Hf) as [Hs Hf'].
      destruct (IH s' Hf' eq_refl) as (Hd & Hok & Hpre).
      split; [simpl; now rewrite <- Hd|].
      split; [|exact Hpre].
      simpl. rewrite <- Hd. repeat split; assumption.
Qed.

Lemma find_marker_settled (m settled tail rest : list ascii) :
  settled_ok m settled tail ->
  find_marker m (settled ++ tail ++ rest)
  = match find_marker m (tail ++ rest) with
    | Some (b, a) => Some (settled ++ b, a)
    | None => None
    end.
Proof.
  induction settled as [|c s IH]; cbn [settled_ok find_marker app].
  - intros _. destruct (find_marker m (tail ++ rest)) as [[b a]|]; reflexivity.
  - intros [[Hp Hs] Hok].
    destruct (apart_app m (c :: s ++ tail) rest Hp Hs) as [_ Hs'].
    rewrite <- app_comm_cons, <- app_assoc in Hs'.
    rewrite Hs', (IH Hok).
    destruct (find_marker m (tail ++ rest)) as [[b a]|]; reflexivity.
Qed.

Lemma hold_back_settled (m settled tail rest : list ascii) :
  settled_ok m settled tail ->
  hold_back m (settled ++ tail ++ rest)
  = let '(s', h') := hold_back m (tail ++ rest) in (settled ++ s', h').
Proof.
  induction settled as [|c s IH]; cbn [settled_ok hold_back app].
  - intros _. destruct (hold_back m (tail ++ rest)); reflexivity.
  - intros [[Hp Hs] Hok].
    destruct (apart_app m (c :: s ++ tail) rest Hp Hs) as [Hp' _].
    rewrite <- app_comm_cons, <- app_assoc in Hp'.
    rewrite Hp', (IH Hok).
    destruct (hold_back m (tail ++ rest)); reflexivity.
Qed.

Lemma in_code_state_of (inside : bool) (held : list ascii) :
  in_code (state_of inside held) = inside.
Proof. destruct inside, held; reflexivity. Qed.

Lemma list_ascii_of_string_app (a b : string) :
  list_ascii_of_string (String.append a b)
  = list_ascii_of_string a ++ list_ascii_of_string b.
Proof. induction a as [|c a IH]; simpl; [reflexivity | now rewrite IH]. Qed.

Variables open_marker close_marker : list ascii.
Hypothesis open_marker_nonempty : (0 < length open_marker)%nat.
Hypothesis close_marker_nonempty : (0 < length close_marker)%nat.

Local Abbreviation scan :=
  (scan open_marker close_marker open_marker_nonempty close_marker_nonempty).
Local Abbreviation process_chars :=
  (process_chars open_marker close_marker
     open_marker_nonempty close_marker_nonempty).
Local Abbreviation process_chunk :=
  (process_chunk open_marker close_marker
     open_marker_nonempty close_marker_nonempty).
Local Abbreviation feed :=
  (feed open_marker close_marker open_marker_nonempty close_marker_nonempty).
Local Abbreviation segments_of :=
  (segments_of open_marker close_marker
     open_marker_nonempty close_marker_nonempty).
Local Abbreviation marker_for := (marker_for open_marker close_marker).

(** The scan, unfolded once. *)
Lemma scan_unfold (inside : bool) (buffer data : list ascii) :
  scan inside buffer data
  = match find_marker (marker_for inside) data with
    | Some (before, after) =>
        let '(segments, parser) := scan (negb inside) [] after in
        (emit inside (buffer ++ before) ++ segments, parser)
    | None =>
        let '(settled, held) := hold_back (marker_for inside) data in
        ([], mkParser (state_of inside held) (buffer ++ settled) held)
    end.
Proof.
  rewrite scan_equation_1.
  destruct (inspect (find_marker (marker_for inside) data)) as [[[b a]|] H];
    simpl; now rewrite H.
Qed.

(** Settled text can as well be in the buffer already. *)
Lemma scan_settled (inside : bool) (buffer settled tail rest : list ascii) :
  settled_ok (marker_for inside) settled tail ->
  scan inside buffer (settled ++ tail ++ rest)
  = scan inside (buffer ++ settled) (tail ++ rest).
Proof.
  intros Hok.
  rewrite (scan_unfold inside buffer), (scan_unfold inside (buffer ++ settled)).
  rewrite (find_marker_settled _ _ _ rest Hok).
  rewrite (hold_back_settled _ _ _ rest Hok).
  destruct (find_marker (marker_for inside) (tail ++ rest)) as [[b a]|].
  - now rewrite <- app_assoc.
  - destruct (hold_back (marker_for inside) (tail ++ rest)) as [s' h'].
    now rewrite <- app_assoc.
Qed.

(** Scanning a text in two pieces, the second with the partial marker held
    back after the first, gives what scanning it at once gives. *)
Lemma scan_app (d2 : list ascii) (n : nat) :
  forall (d1 : list ascii) (inside : bool) (buffer : list ascii),
  (length d1 < n)%nat ->
  scan inside buffer (d1 ++ d2)
  = let '(s1, p1) := scan inside buffer d1 in
    let '(s2, p2) :=
      scan (in_code (state p1)) (StreamingTextParser.buffer p1)
        (partial p1 ++ d2) in
    (s1 ++ s2, p2).
Proof.
  induction n as [|n IH]; intros d1 inside buffer Hlen; [lia|].
  rewrite (scan_unfold inside buffer d1).
  destruct (find_marker (marker_for inside) d1) as [[b a]|] eqn:Hf.
  - rewrite (scan_unfold inside buffer (d1 ++ d2)).
    rewrite (find_marker_app _ _ _ _ d2 Hf).
    pose proof (find_marker_length _ _ _ _ Hf) as Hl.
    assert (Hm : (0 < length (marker_for inside))%nat)
      by (unfold StreamingTextParser.marker_for; destruct inside; assumption).
    rewrite (IH a (negb inside) []) by lia.
    destruct (scan (negb inside) [] a) as [s1 p1].
    destruct (scan (in_code (state p1)) (StreamingTextParser.buffer p1)
                (partial p1 ++ d2)) as [s2 p2].
    now rewrite app_assoc.
  - destruct (hold_back (marker_for inside) d1) as [settled held] eqn:Hh.
    destruct (hold_back_spec _ _ _ _ Hf Hh) as (Hd & Hok & _).
    cbn [state StreamingTextParser.buffer partial].
    rewrite in_code_state_of. subst d1. rewrite <- app_assoc.
    rewrite (scan_settled inside buffer settled held d2 Hok).
    destruct (scan inside (buffer ++ settled) (held ++ d2)) as [s2 p2].
    reflexivity.
Qed.

(** A chunk cut in two. *)
Lemma process_chunk_app (p : t) (a b : string) :
  process_chunk p (String.append a b)
  = let '(s1, p1) := process_chunk p a in
    let '(s2, p2) := process_chunk p1 b in
    (s1 ++ s2, p2).
Proof.
  unfold StreamingTextParser.process_chunk, StreamingTextParser.process_chars.
  rewrite list_ascii_of_string_app, app_assoc.
  apply (scan_app _ (S (length (partial p ++ list_ascii_of_string a)))).
  lia.
Qed.

(** Feeding chunks one by one is feeding their concatenation. *)
Lemma feed_concat (chunks : list string) :
  forall (chunk : string) (p : t),
  feed p (chunk :: chunks) = process_chunk p (String.concat "" (chunk :: chunks)).
Proof.
  induction chunks as [|c' chunks IH]; intros chunk p.
  - simpl. destruct (process_chunk p chunk) as [s p'].
    now rewrite app_nil_r.
  - change (String.concat "" (chunk :: c' :: chunks))
      with (String.append chunk
              (String.append "" (String.concat "" (c' :: chunks)))).
    change (String.append "" (String.concat "" (c' :: chunks)))
      with (String.concat "" (c' :: chunks)).
    rewrite process_chunk_app.
    change (feed p (chunk :: c' :: chunks))
      with (let '(s, p') := process_chunk p chunk in
            let '(s', p'') := feed p' (c' :: chunks) in
            (s ++ s', p'')).
    destruct (process_chunk p chunk) as [s1 p1].
    now rewrite IH.
Qed.

(** C7.  Feeding a text to the segmenter in chunks, however it is cut (also
    through a marker), and flushing gives the same segments, in the same
    order, as feeding it as one chunk and flushing. *)
Theorem chunking_is_invisible (chunks : list string) :
  segments_of chunks = segments_of [String.concat "" chunks].
Proof.
  unfold StreamingTextParser.segments_of.
  destruct chunks as [|chunk chunks].
  - cbn [String.concat StreamingTextParser.feed].
    unfold StreamingTextParser.process_chunk, StreamingTextParser.process_chars.
    cbn [state StreamingTextParser.buffer partial in_code list_ascii_of_string app].
    rewrite scan_unfold.
    cbn [StreamingTextParser.marker_for].
    destruct open_marker as [|k m]; [simpl in open_marker_nonempty; lia|].
    reflexivity.
  - rewrite feed_concat.
    cbn [StreamingTextParser.feed].
    destruct (process_chunk _ (String.concat "" (chunk :: chunks))) as [s p].
    now rewrite app_nil_r.
Qed.

End SegmenterFacts.

(** A fence cut by the chunking, on Markdown fences. *)
Example segments_of_split_fence :
  StreamingTextParser.segments_of Demo.fence_open Demo.fence_close
    Demo.fence_open_nonempty Demo.fence_close_nonempty
    ["hello ``"; "`pyth"; "on x=1 `"; "``` bye ``"]
  = [mkSegment SEG_TEXT "hello "; mkSegment SEG_CODE " x=1 ";
     mkSegment SEG_TEXT "` bye ``"].
Proof. vm_compute. reflexivity. Qed.

Lemma chunking_is_invisible_witness :
  (0 < length Demo.fence_open)%nat /\
  (0 < length Demo.fence_close)%nat /\
  StreamingTextParser.segments_of Demo.fence_open Demo.fence_close
    Demo.fence_open_nonempty Demo.fence_close_nonempty
    ["hello ``"; "`pyth"; "on x=1 `"; "``` bye ``"]
  = StreamingTextParser.segments_of Demo.fence_open Demo.fence_close
      Demo.fence_open_nonempty Demo.fence_close_nonempty
      [String.concat "" ["hello ``"; "`pyth"; "on x=1 `"; "``` bye ``"]].
Proof.
  split; [simpl; lia|]. split; [simpl; lia|].
  apply (chunking_is_invisible Demo.fence_open Demo.fence_close
           Demo.fence_open_nonempty Demo.fence_close_nonempty).
Defined.

(** ** The engine on the closed instance *)

Section Witnesses.
Import Demo.

(** A model that always answers with code, budget 3. *)
Lemma always_code_exhausts_budget_witness :
  exists context' self',
    @run_ctx (demo (fun _ => "!x")) "q" (demo_agent (fun _ => "!x") 3 10 [])
    = (Returned (Some (mkAgentResponse "" ST_MAX_STEPS_REACHED 3 3)),
       context', self') /\
    @run (demo (fun _ => "!x")) "q" (demo_agent (fun _ => "!x") 3 10 [])
    = (Returned (Some (mkAgentResponse "" ST_MAX_STEPS_REACHED 3 3)), self') /\
    ExecutionContext.state context' = MAX_STEPS_REACHED /\
    model_calls (calls self') = (0 + Z.to_nat 3)%nat.
Proof.
  apply (@always_code_exhausts_budget (demo (fun _ => "!x")) "q"
           (demo_agent (fun _ => "!x") 3 10 []) 3).
  - reflexivity.
  - lia.
  - intros ms msgs. exists "!x", (S ms). split; reflexivity.
Defined.

(** The run of that agent, computed. *)
Example always_code_run :
  (@run (demo (fun _ => "!x")) "q" (demo_agent (fun _ => "!x") 3 10 [])).1
  = Returned (Some (mkAgentResponse "" ST_MAX_STEPS_REACHED 3 3)).
Proof. vm_compute. reflexivity. Qed.

(** A turn whose code raises in the sandbox. *)
Lemma execution_error_is_recovered_witness :
  let C := demo (fun _ => "!boom") in
  let self0 := demo_agent (fun _ => "!boom") 3 10 [SystemMessage "system"] in
  let context0 := ExecutionContext.mk 3 0 RUNNING in
  let context := ExecutionContext.mk 3 1 RUNNING in
  let self := @called C (Store._prepare_messages (@messages C self0)) 1%nat self0 in
  let retry_prompt :=
    String.append "Error: boom failed"
      (String "010"%char "Please fix the code and try again.") in
  let self' :=
    @added C (ExecutionResultMessage retry_prompt)
      (@executed C "boom" 1%nat
         (@added C (CodeExecutionMessage "!boom") self)) in
  @_process_model_response C "!boom" context self
  = (Ok ("Execution failed: boom failed", context), self') /\
  spec_failure_annotated "boom failed" "Execution failed: boom failed" /\
  last (@messages C self') = Some (ExecutionResultMessage retry_prompt) /\
  role (ExecutionResultMessage retry_prompt) = EXECUTION_RESULT /\
  spec_retry_prompt "boom failed"
    (content (ExecutionResultMessage retry_prompt)) /\
  ExecutionContext.state context = RUNNING /\
  @run_loop C 3 context0 self0 = @run_loop C 2 context self'.
Proof.
  intros C self0 context0 context self retry_prompt self'.
  apply (@execution_error_is_recovered C 2 context0 self0 "!boom" "boom"
           1%nat (Exception "boom failed") 1%nat).
  - reflexivity.
  - simpl. lia.
  - reflexivity.
  - reflexivity.
  - discriminate.
  - reflexivity.
  - simpl. lia.
Defined.

(** A response with an empty code body. *)
Lemma empty_code_is_final_answer_witness :
  let C := demo (fun _ => "!") in
  let self := demo_agent (fun _ => "!") 3 10 [SystemMessage "system"] in
  let context := ExecutionContext.mk 3 1 RUNNING in
  @_process_model_response C "!" context self
  = (Ok ("!", ExecutionContext.complete context),
     @added C (AssistantMessage "!") self) /\
  @calls C (@added C (AssistantMessage "!") self) = @calls C self.
Proof.
  intros C self context.
  pose proof (@empty_code_is_final_answer C "!" context self
                (or_intror eq_refl)) as H.
  cbv zeta in H. split; [apply H | apply H].
Defined.

(** A model whose first response has no code. *)
Lemma first_response_without_code_witness :
  let C := demo (fun _ => "done") in
  let self := demo_agent (fun _ => "done") 3 10 [] in
  exists context' self',
    @run_ctx C "q" self
    = (Returned (Some (mkAgentResponse "done" SUCCESS 1 3)), context', self') /\
    @run C "q" self
    = (Returned (Some (mkAgentResponse "done" SUCCESS 1 3)), self') /\
    ExecutionContext.state context' = COMPLETED /\
    last (@messages C self') = Some (AssistantMessage "done") /\
    @calls C self'
    = [CallModel
         (Store._prepare_messages (@messages C (@initialized C "q" self)))].
Proof.
  intros C self.
  apply (@first_response_without_code C "q" self "done" 1%nat).
  - simpl. lia.
  - simpl. lia.
  - reflexivity.
  - reflexivity.
Defined.

(** An execution error on the first turn and a final answer on the second,
    budget 5: the run ends with SUCCESS after two steps. *)
Example error_then_answer :
  let reply := fun n : nat => match n with O => "!boom" | _ => "fixed" end in
  (@run (demo reply) "q" (demo_agent reply 5 10 [])).1
  = Returned (Some (mkAgentResponse "fixed" SUCCESS 2 5)).
Proof. vm_compute. reflexivity. Qed.

End Witnesses.

(** ** Ownership of the message list *)

Section RefsFacts.
Import Refs.

Local Ltac frames_split :=
  unfold frames; split; [|split; [|split; [|split; [|split]]]].

Lemma new_list_fresh (l : list Message) (h : heap) :
  ((new_list l h).1 ∉ dom h) /\
  (new_list l h).2 = <[(new_list l h).1 := l]> h.
Proof. split; [apply is_fresh | reflexivity]. Qed.

Lemma frames_refl (a : agent) (h : heap) :
  messages a ∈ dom h -> frames a h a h (h !!! messages a).
Proof. intros Hin. frames_split; auto. Qed.

Lemma frames_trans (a a1 a2 : agent) (h h1 h2 : heap)
    (l1 l2 : list Message) :
  frames a h a1 h1 l1 -> frames a1 h1 a2 h2 l2 -> frames a h a2 h2 l2.
Proof.
  intros (Hin1 & Hsub1 & Hfr1 & Hloc1 & Hmax1 & _)
         (Hin2 & Hsub2 & Hfr2 & Hloc2 & Hmax2 & Hl2).
  frames_split.
  - exact Hin2.
  - set_solver.
  - intros r Hr Hne. rewrite Hfr2.
    + apply Hfr1; assumption.
    + set_solver.
    + destruct Hloc1 as [->|Hnew]; [exact Hne | set_solver].
  - destruct Hloc2 as [->|Hnew]; [exact Hloc1 | right; set_solver].
  - congruence.
  - exact Hl2.
Qed.

(** Writing to the agent's own list object. *)
Lemma frames_store (a : agent) (h : heap) (l : list Message) :
  messages a ∈ dom h ->
  frames a h a (<[messages a := l]> h) l.
Proof.
  intros Hin. frames_split.
  - rewrite dom_insert_L. set_solver.
  - rewrite dom_insert_L. set_solver.
  - intros r _ Hne. now rewrite lookup_insert_ne.
  - now left.
  - reflexivity.
  - apply lookup_total_insert_eq.
Qed.

(** Binding [self.messages] to a new list object. *)
Lemma frames_rebind (a : agent) (h : heap) (l : list Message) :
  frames a h (mkAgentRef (new_list l h).1 (max_history a)) (new_list l h).2 l.
Proof.
  destruct (new_list_fresh l h) as [Hfresh ->].
  set (r := (new_list l h).1) in *.
  frames_split; cbn [messages max_history].
  - rewrite dom_insert_L. set_solver.
  - rewrite dom_insert_L. set_solver.
  - intros r' Hr' _. rewrite lookup_insert_ne; [reflexivity|].
    intros ->. contradiction.
  - now right.
  - reflexivity.
  - apply lookup_total_insert_eq.
Qed.

Lemma trim_history_frames (a : agent) (h : heap) :
  messages a ∈ dom h ->
  frames a h (_trim_history a h).1 (_trim_history a h).2
    (match Store._trim_history (max_history a) (h !!! messages a) with
     | Ok l' => l'
     | Raise _ => h !!! messages a
     end).
Proof.
  intros Hin. unfold _trim_history, Store._trim_history.
  destruct (len (h !!! messages a) >? max_history a);
    [|apply frames_refl, Hin].
  destruct (h !!! messages a) as [|s l] eqn:Hl.
  - rewrite <- Hl. apply frames_refl, Hin.
  - match goal with
    | |- context [new_list ?l' h] =>
        pose proof (frames_rebind a h l') as Hf;
        destruct (new_list l' h) as [r h']
    end.
    exact Hf.
Qed.

Lemma apply_op_frames (o : Op) (a : agent) (h : heap) :
  messages a ∈ dom h ->
  frames a h (apply_op o (a, h)).1 (apply_op o (a, h)).2
    (list_op (max_history a) o (h !!! messages a)).
Proof.
  intros Hin. destruct o as [message|system_prompt]; cbn [apply_op fst snd].
  - unfold add_message.
    set (h1 := <[messages a := (h !!! messages a) ++ [message]]> h).
    pose proof (frames_store a h ((h !!! messages a) ++ [message]) Hin) as H1.
    fold h1 in H1.
    assert (Hin1 : messages a ∈ dom h1)
      by (destruct H1 as (? & _); assumption).
    pose proof (trim_history_frames a h1 Hin1) as H2.
    assert (Hl1 : h1 !!! messages a = (h !!! messages a) ++ [message])
      by apply lookup_total_insert_eq.
    rewrite Hl1 in H2.
    unfold list_op, Store.add_message.
    eapply frames_trans; [exact H1 | exact H2].
  - unfold _update_system_message. cbn [fst snd list_op].
    apply frames_store, Hin.
Qed.

Lemma apply_ops_frames (ops : list Op) :
  forall (a : agent) (h : heap),
  messages a ∈ dom h ->
  frames a h (apply_ops ops (a, h)).1 (apply_ops ops (a, h)).2
    (list_ops (max_history a) ops (h !!! messages a)).
Proof.
  induction ops as [|o ops IH]; intros a h Hin.
  - apply frames_refl, Hin.
  - unfold apply_ops, list_ops. cbn [fold_left].
    pose proof (apply_op_frames o a h Hin) as H1.
    destruct (apply_op o (a, h)) as [a1 h1]. cbn [fst snd] in H1.
    assert (Hin1 : messages a1 ∈ dom h1)
      by (destruct H1 as (? & _); assumption).
    pose proof (IH a1 h1 Hin1) as H2.
    destruct H1 as (H11 & H12 & H13 & H14 & H15 & H16).
    rewrite H15, H16 in H2.
    eapply frames_trans; [|exact H2].
    frames_split; first [assumption | reflexivity].
Qed.

Lemma init_frames (c : loc) (N : Z) (h : heap) :
  c ∈ dom h ->
  (messages (init c N h).1 ∉ dom h) /\
  (messages (init c N h).1 ∈ dom (init c N h).2) /\
  (dom h ⊆ dom (init c N h).2) /\
  (forall r, r ∈ dom h -> (init c N h).2 !! r = h !! r) /\
  max_history (init c N h).1 = N /\
  (init c N h).2 !!! messages (init c N h).1 = h !!! c.
Proof.
  intros Hc. unfold init.
  destruct (new_list_fresh (h !!! c) h) as [Hfresh Heq].
  destruct (new_list (h !!! c) h) as [r h']. cbn [fst snd] in *. subst h'.
  cbn [messages max_history].
  split; [|split; [|split; [|split; [|split]]]].
  - exact Hfresh.
  - rewrite dom_insert_L. set_solver.
  - rewrite dom_insert_L. set_solver.
  - intros r' Hr'. rewrite lookup_insert_ne; [reflexivity|].
    intros ->. contradiction.
  - reflexivity.
  - apply lookup_total_insert_eq.
Qed.

(** Two agents on distinct list objects: the operations of each act on its
    own list only. *)
Lemma apply_ops2_spec (ops : list (Who * Op)) :
  forall (a1 a2 : agent) (h : heap),
  messages a1 ∈ dom h -> messages a2 ∈ dom h ->
  messages a1 <> messages a2 ->
  let '(b1, b2, h') := apply_ops2 ops (a1, a2, h) in
  messages b1 <> messages b2 /\
  h' !!! messages b1
  = list_ops (max_history a1) (ops_of First ops) (h !!! messages a1) /\
  h' !!! messages b2
  = list_ops (max_history a2) (ops_of Second ops) (h !!! messages a2) /\
  (forall r, r ∈ dom h -> r <> messages a1 -> r <> messages a2 ->
     h' !! r = h !! r).
Proof.
  induction ops as [|[w o] ops IH]; intros a1 a2 h Hin1 Hin2 Hne.
  - cbn. split; [exact Hne|]. split; [reflexivity|]. split; [reflexivity|].
    auto.
  - unfold apply_ops2 in *. cbn [fold_left].
    change (apply_op2 (w, o) (a1, a2, h))
      with (match w with
            | First => let '(a1', h') := apply_op o (a1, h) in (a1', a2, h')
            | Second => let '(a2', h') := apply_op o (a2, h) in (a1, a2', h')
            end).
    destruct w.
    + pose proof (apply_op_frames o a1 h Hin1) as Hf.
      destruct (apply_op o (a1, h)) as [a1' h1]. cbn [fst snd] in Hf.
      destruct Hf as (F1 & F2 & F3 & F4 & F5 & F6).
      assert (Hne' : messages a1' <> messages a2).
      { destruct F4 as [->|Hnew]; [exact Hne|]. intros Heq.
        rewrite Heq in Hnew. contradiction. }
      assert (Hin2' : messages a2 ∈ dom h1) by set_solver.
      specialize (IH a1' a2 h1 F1 Hin2' Hne').
      destruct (fold_left _ ops (a1', a2, h1)) as [[b1 b2] h'].
      destruct IH as (I1 & I2 & I3 & I4).
      assert (H2 : h1 !!! messages a2 = h !!! messages a2).
      { unfold lookup_total, map_lookup_total.
        rewrite (F3 _ Hin2); [reflexivity | congruence]. }
      split; [|split; [|split]].
      * exact I1.
      * rewrite I2, F5, F6. cbn [ops_of flat_map fst snd app].
        reflexivity.
      * rewrite I3, H2. reflexivity.
      * intros r Hr Hr1 Hr2. rewrite I4.
        -- apply F3; assumption.
        -- set_solver.
        -- destruct F4 as [->|Hnew]; [exact Hr1|]. intros ->. contradiction.
        -- exact Hr2.
    + pose proof (apply_op_frames o a2 h Hin2) as Hf.
      destruct (apply_op o (a2, h)) as [a2' h1]. cbn [fst snd] in Hf.
      destruct Hf as (F1 & F2 & F3 & F4 & F5 & F6).
      assert (Hne' : messages a1 <> messages a2').
      { destruct F4 as [->|Hnew]; [exact Hne|]. intros Heq.
        rewrite <- Heq in Hnew. contradiction. }
      assert (Hin1' : messages a1 ∈ dom h1) by set_solver.
      specialize (IH a1 a2' h1 Hin1' F1 Hne').
      destruct (fold_left _ ops (a1, a2', h1)) as [[b1 b2] h'].
      destruct IH as (I1 & I2 & I3 & I4).
      assert (H1 : h1 !!! messages a1 = h !!! messages a1).
      { unfold lookup_total, map_lookup_total.
        rewrite (F3 _ Hin1); [reflexivity | congruence]. }
      split; [|split; [|split]].
      * exact I1.
      * rewrite I2, H1. reflexivity.
      * rewrite I3, F5, F6. cbn [ops_of flat_map fst snd app].
        reflexivity.
      * intros r Hr Hr1 Hr2. rewrite I4.
        -- apply F3; assumption.
        -- set_solver.
        -- exact Hr1.
        -- destruct F4 as [->|Hnew]; [exact Hr2|]. intros ->. contradiction.
Qed.

Lemma list_ops_app (N : Z) (ops ops' : list Op) (l : list Message) :
  list_ops N (ops ++ ops') l = list_ops N ops' (list_ops N ops l).
Proof. unfold list_ops. apply fold_left_app. Qed.

Lemma lookup_total_Some (h : heap) (r : loc) (l : list Message) :
  h !! r = Some l -> h !!! r = l /\ r ∈ dom h.
Proof.
  intros H. split.
  - unfold lookup_total, map_lookup_total. now rewrite H.
  - apply elem_of_dom. eauto.
Qed.

Lemma lookup_total_frame (h h' : heap) (r : loc) :
  h' !! r = h !! r -> h' !!! r = h !!! r.
Proof. intros H. unfold lookup_total, map_lookup_total. now rewrite H. Qed.

(** C10.  The constructor stores a copy of the list it is given: whatever
    the agent then does to its history (appending, trimming, rewriting the
    system message), the caller's list object keeps its elements; and two
    agents built from the default list work on distinct list objects, each
    history being the result of that agent's own operations, with the
    default list still empty. *)
Theorem agent_owns_its_message_list (h : heap) (c d : loc)
    (l0 : list Message) (N N1 N2 : Z) (ops ops0 : list Op)
    (ops12 : list (Who * Op)) :
  h !! c = Some l0 ->
  h !! d = Some [] ->
  (let '(a, h1) := init c N h in
   let '(a', h') := apply_ops ops (a, h1) in
   h1 !!! messages a = l0 /\
   h' !! c = Some l0 /\
   messages a' <> c /\
   h' !!! messages a' = list_ops N ops l0) /\
  (let '(a1, h1) := init d N1 h in
   let '(a1', h2) := apply_ops ops0 (a1, h1) in
   let '(a2, h3) := init d N2 h2 in
   let '(b1, b2, h') := apply_ops2 ops12 (a1', a2, h3) in
   messages b1 <> messages b2 /\
   h' !!! messages b1 = list_ops N1 (ops0 ++ ops_of First ops12) [] /\
   h' !!! messages b2 = list_ops N2 (ops_of Second ops12) [] /\
   h' !! d = Some []).
Proof.
  intros Hc Hd.
  destruct (lookup_total_Some _ _ _ Hc) as [Hcl Hcin].
  destruct (lookup_total_Some _ _ _ Hd) as [Hdl Hdin].
  split.
  - pose proof (init_frames c N h Hcin) as (I1 & I2 & I3 & I4 & I5 & I6).
    destruct (init c N h) as [a h1]. cbn [fst snd] in *.
    pose proof (apply_ops_frames ops a h1 I2) as (F1 & F2 & F3 & F4 & F5 & F6).
    destruct (apply_ops ops (a, h1)) as [a' h']. cbn [fst snd] in *.
    assert (Hne : c <> messages a) by (intros ->; contradiction).
    split; [congruence|]. split; [|split].
    + rewrite F3; [rewrite I4; assumption | set_solver | exact Hne].
    + destruct F4 as [Heq|Hnew]; [rewrite Heq; congruence|].
      intros Heq. apply Hnew. rewrite Heq. set_solver.
    + rewrite F6, I5, I6, Hcl. reflexivity.
  - pose proof (init_frames d N1 h Hdin) as (I1 & I2 & I3 & I4 & I5 & I6).
    destruct (init d N1 h) as [a1 h1]. cbn [fst snd] in *.
    pose proof (apply_ops_frames ops0 a1 h1 I2)
      as (F1 & F2 & F3 & F4 & F5 & F6).
    destruct (apply_ops ops0 (a1, h1)) as [a1' h2]. cbn [fst snd] in *.
    assert (Hne1 : d <> messages a1) by (intros ->; contradiction).
    assert (Hdin1 : d ∈ dom h1) by set_solver.
    assert (Hd2 : h2 !! d = Some [])
      by (rewrite F3; [rewrite I4; assumption | assumption | exact Hne1]).
    destruct (lookup_total_Some _ _ _ Hd2) as [Hdl2 Hdin2].
    pose proof (init_frames d N2 h2 Hdin2) as (J1 & J2 & J3 & J4 & J5 & J6).
    destruct (init d N2 h2) as [a2 h3]. cbn [fst snd] in *.
    assert (Hne12 : messages a1' <> messages a2).
    { intros Heq. apply J1. rewrite <- Heq. exact F1. }
    assert (Hin13 : messages a1' ∈ dom h3) by set_solver.
    pose proof (apply_ops2_spec ops12 a1' a2 h3 Hin13 J2 Hne12) as S.
    destruct (apply_ops2 ops12 (a1', a2, h3)) as [[b1 b2] h'].
    destruct S as (S1 & S2 & S3 & S4).
    split; [exact S1|]. split; [|split].
    + rewrite S2, list_ops_app, F5, I5.
      rewrite (lookup_total_frame _ _ _ (J4 _ F1)), F6, I5, I6, Hdl.
      reflexivity.
    + rewrite S3, J5, J6, Hdl2. reflexivity.
    + rewrite S4.
      * rewrite J4; assumption.
      * set_solver.
      * destruct F4 as [Heq|Hnew]; [rewrite Heq; exact Hne1|].
        intros Heq. apply Hnew. rewrite <- Heq. exact Hdin1.
      * intros Heq. apply J1. rewrite <- Heq. exact Hdin2.
Qed.

End RefsFacts.

(** The caller's list at location 1, the default list at location 2. *)
Lemma agent_owns_its_message_list_witness :
  let h : gmap positive (list Message) :=
    <[1%positive := [UserMessage "kept"]]> (<[2%positive := []]> ∅) in
  let ops :=
    [Refs.OpUpdateSystemMessage "system"; Refs.OpAddMessage (UserMessage "a");
     Refs.OpAddMessage (UserMessage "b")] in
  let ops12 :=
    [(Refs.First, Refs.OpAddMessage (UserMessage "one"));
     (Refs.Second, Refs.OpAddMessage (UserMessage "two"))] in
  (let '(a, h1) := Refs.init 1%positive 2 h in
   let '(a', h') := Refs.apply_ops ops (a, h1) in
   h1 !!! Refs.messages a = [UserMessage "kept"] /\
   h' !! 1%positive = Some [UserMessage "kept"] /\
   Refs.messages a' <> 1%positive /\
   h' !!! Refs.messages a' = Refs.list_ops 2 ops [UserMessage "kept"]) /\
  (let '(a1, h1) := Refs.init 2%positive 10 h in
   let '(a1', h2) := Refs.apply_ops [] (a1, h1) in
   let '(a2, h3) := Refs.init 2%positive 10 h2 in
   let '(b1, b2, h') := Refs.apply_ops2 ops12 (a1', a2, h3) in
   Refs.messages b1 <> Refs.messages b2 /\
   h' !!! Refs.messages b1
   = Refs.list_ops 10 ([] ++ Refs.ops_of Refs.First ops12) [] /\
   h' !!! Refs.messages b2
   = Refs.list_ops 10 (Refs.ops_of Refs.Second ops12) [] /\
   h' !! 2%positive = Some []).
Proof.
  intros h ops ops12.
  apply (agent_owns_its_message_list h 1%positive 2%positive
           [UserMessage "kept"] 2 10 10 ops [] ops12).
  - vm_compute. reflexivity.
  - vm_compute. reflexivity.
Defined.

(** The history of an agent built on a caller's list, after a system
    message and two appends with capacity 2. *)
Example trimmed_history :
  Refs.list_ops 2
    [Refs.OpUpdateSystemMessage "system"; Refs.OpAddMessage (UserMessage "a");
     Refs.OpAddMessage (UserMessage "b")]
    [UserMessage "kept"]
  = [SystemMessage "system"; UserMessage "b"].
Proof. vm_compute. reflexivity. Qed.

(** The events of a streamed run whose model answers without code. *)
Example final_answer_stream :
  (@stream_events (Demo.demo (fun _ => "ok")) "q"
     (Demo.demo_agent (fun _ => "ok") 3 10 [])).1.1
  = ([mkEvent FINAL_RESPONSE "ok"], StreamReturned).
Proof. vm_compute. reflexivity. Qed.

(** The events of a streamed run that exhausts a budget of one step. *)
Example exhausted_stream :
  (@stream_events (Demo.demo (fun _ => "!x")) "q"
     (Demo.demo_agent (fun _ => "!x") 1 10 [])).1.1
  = ([mkEvent EV_EXECUTION_RESULT "x";
      mkEvent EV_MAX_STEPS_REACHED "Max steps reached"], StreamReturned).
Proof. vm_compute. reflexivity. Qed.

Lemma no_event_after_terminal_witness :
  let C := Demo.demo (fun _ => "ok") in
  let self := Demo.demo_agent (fun _ => "ok") 3 10 [] in
  (@stream_events C "q" self).1.1.2 = StreamReturned.
Proof.
  intros C self.
  apply (@no_event_after_terminal C "q" self).
  vm_compute. apply Exists_cons_hd. reflexivity.
Defined.

Lemma prepare_messages_remaps_roles_only_witness :
  let C := Demo.demo (fun _ => "ok") in
  let self :=
    Demo.demo_agent (fun _ => "ok") 3 10
      [SystemMessage "s"; CodeExecutionMessage "c";
       ExecutionResultMessage "r"] in
  map t_role (Store._prepare_messages (@messages C self))
  = ["system"; "assistant"; "user"] /\
  spec_role_mapping SYSTEM = SYSTEM.
Proof.
  intros C self.
  pose proof (@prepare_messages_remaps_roles_only C self)
    as (_ & _ & Hrole & _ & _ & Hother).
  split; [exact Hrole|].
  apply Hother; discriminate.
Defined.

(** * Further properties of the code *)

(** ** The execution context over several steps *)

(** X1.  [k] calls of [next_step] on any context: with [r] steps left in the
    budget (none when the count is already at or past it), the first
    [min k r] calls return true and count a step, all later ones return
    false and count nothing; the state is untouched as long as the budget
    holds and MAX_STEPS_REACHED from the first refusal on. *)
Theorem next_steps_spec (k : nat) (c : ExecutionContext.t) :
  let r := Z.to_nat (ExecutionContext.max_steps c
                     - ExecutionContext.total_steps c) in
  next_steps k c
  = (repeat true (Nat.min k r) ++ repeat false (k - r),
     ExecutionContext.mk (ExecutionContext.max_steps c)
       (ExecutionContext.total_steps c + Z.of_nat (Nat.min k r))
       (if (k <=? r)%nat then ExecutionContext.state c
        else MAX_STEPS_REACHED)).
Proof.
  revert c. induction k as [|k IH]; intros [m n s]; cbn zeta.
  - cbn. now rewrite Z.add_0_r.
  - cbn [next_steps]. unfold ExecutionContext.next_step.
    cbn [ExecutionContext.max_steps ExecutionContext.total_steps
         ExecutionContext.state].
    destruct (Z.geb_spec n m) as [Hge|Hlt].
    + rewrite IH.
      cbn [ExecutionContext.max_steps ExecutionContext.total_steps
           ExecutionContext.state].
      replace (Z.to_nat (m - n)) with 0%nat by lia.
      rewrite !Nat.min_0_r, !Nat.sub_0_r. cbn [repeat app].
      destruct (Nat.leb_spec k 0); reflexivity.
    + rewrite IH.
      cbn [ExecutionContext.max_steps ExecutionContext.total_steps
           ExecutionContext.state].
      replace (Z.to_nat (m - (n + 1))) with (Z.to_nat (m - n) - 1)%nat by lia.
      destruct (Z.to_nat (m - n)) as [|r] eqn:Hr; [lia|].
      replace (S r - 1)%nat with r by lia.
      cbn [Nat.min Nat.sub repeat app Nat.leb].
      do 2 f_equal. lia.
Qed.

(** ** The message store at its edges *)

Section StoreEdges.

(** The history is kept as it is while there is room. *)
Lemma add_message_room (N : Z) (m : Message) (l : list Message) :
  len l + 1 <= N -> Store.add_message N m l = Ok (l ++ [m]).
Proof.
  intros Hroom. unfold Store.add_message, Store._trim_history.
  rewrite len_app_one.
  destruct (Z.gtb_spec (len l + 1) N); [lia | reflexivity].
Qed.

Lemma trim_history_bounded (N : Z) (l l' : list Message) :
  2 <= N -> Store._trim_history N l = Ok l' -> len l' <= N.
Proof.
  intros HN. unfold Store._trim_history.
  destruct (Z.gtb_spec (len l) N) as [Hgt|Hle].
  2:{ intros [= <-]. exact Hle. }
  destruct l as [|s l]; [discriminate|].
  assert (Hlen : len l > N - 1) by (unfold len in *; simpl in Hgt; lia).
  destruct (Z.gtb_spec (len l) (N - 1)); [|lia].
  intros [= <-]. rewrite slice_from_neg by lia.
  unfold len in *. simpl. rewrite length_drop. lia.
Qed.

(** X2.  [_trim_history] raises (an IndexError, on [self.messages[0]])
    exactly on an empty list with a negative capacity; [add_message], which
    appends first, never raises, whatever the capacity, and never leaves
    the store empty. *)
Theorem trim_history_index_error (N : Z) (l : list Message) :
  ((exists e, Store._trim_history N l = Raise e) <-> (l = [] /\ N < 0)) /\
  (forall m, exists l', Store.add_message N m l = Ok l' /\ l' <> []).
Proof.
  split.
  - unfold Store._trim_history. destruct l as [|s l].
    + change (len (@nil Message)) with 0.
      destruct (Z.gtb_spec 0 N); split.
      * intros _. split; [reflexivity | lia].
      * intros _. eauto.
      * intros [e He]. discriminate.
      * intros [_ Hneg]. lia.
    + split.
      * intros [e He]. destruct (len (s :: l) >? N); discriminate.
      * intros [Hnil _]. discriminate.
  - intros m. unfold Store.add_message.
    destruct l as [|s l]; simpl.
    + destruct (trim_history_cons N m []) as [l' ->]. eauto.
    + destruct (trim_history_cons N s (l ++ [m])) as [l' ->]. eauto.
Qed.

(** X3.  From a capacity of two on, [add_message] keeps the store within
    the capacity whatever it held before: with room left the message is
    appended and nothing else changes; without, the first message stays at
    index 0 and the last [N - 1] of the others, the new one included, follow
    it in their order. *)
Theorem add_message_respects_capacity (N : Z) (m : Message)
    (l l' : list Message) :
  2 <= N ->
  Store.add_message N m l = Ok l' ->
  len l' = Z.min (len l + 1) N /\
  last l' = Some m /\
  (len l + 1 <= N -> l' = l ++ [m]) /\
  (N < len l + 1 -> forall s rest, l ++ [m] = s :: rest ->
     l' = s :: drop (length rest - Z.to_nat (N - 1))%nat rest).
Proof.
  intros HN Hadd.
  assert (Hlast : last l' = Some m)
    by (apply (add_message_last N m l l'); [lia | exact Hadd]).
  destruct (Z.le_gt_cases (len l + 1) N) as [Hroom|Hfull].
  - rewrite (add_message_room _ _ _ Hroom) in Hadd. inversion Hadd; subst.
    split; [rewrite len_app_one; lia|]. split; [exact Hlast|].
    split; [reflexivity | lia].
  - assert (Hshape : forall s rest, l ++ [m] = s :: rest ->
              l' = s :: drop (length rest - Z.to_nat (N - 1))%nat rest).
    { intros s rest Heq. destruct l as [|s0 l0].
      - unfold len in Hfull. simpl in Hfull. lia.
      - simpl in Heq. inversion Heq; subst.
        rewrite add_message_trims in Hadd;
          [now inversion Hadd | lia |].
        unfold len in *. simpl in *. rewrite length_app in *. simpl. lia. }
    split; [|split; [exact Hlast|split; [lia | intros _; exact Hshape]]].
    destruct l as [|s0 l0]; [unfold len in Hfull; simpl in Hfull; lia|].
    rewrite (Hshape s0 (l0 ++ [m]) eq_refl).
    unfold len in *. simpl in *. rewrite length_drop, length_app in *.
    simpl in *. lia.
Qed.

Lemma add_message_respects_capacity_witness :
  Store.add_message 2 (UserMessage "b") [SystemMessage "s"; UserMessage "a"]
  = Ok [SystemMessage "s"; UserMessage "b"] /\
  len [SystemMessage "s"; UserMessage "b"] = 2.
Proof.
  assert (H : Store.add_message 2 (UserMessage "b")
                [SystemMessage "s"; UserMessage "a"]
              = Ok [SystemMessage "s"; UserMessage "b"]) by reflexivity.
  split; [exact H|].
  apply (add_message_respects_capacity 2 (UserMessage "b")
           [SystemMessage "s"; UserMessage "a"]
           [SystemMessage "s"; UserMessage "b"]);
    [lia | exact H].
Defined.

(** X4.  For a capacity of at least one, trimming what has been trimmed
    changes nothing. *)
Theorem trim_history_idempotent (N : Z) (l l' : list Message) :
  1 <= N ->
  Store._trim_history N l = Ok l' ->
  Store._trim_history N l' = Ok l'.
Proof.
  intros HN Htrim.
  destruct (Z.eq_dec N 1) as [->|Hne].
  - assert (Hid : forall k, Store._trim_history 1 k = Ok k).
    { intros k. unfold Store._trim_history. destruct k as [|s k].
      - reflexivity.
      - destruct (len (s :: k) >? 1); [|reflexivity].
        change (1 - 1) with 0.
        destruct (len k >? 0); reflexivity. }
    rewrite Hid in Htrim. inversion Htrim; subst. apply Hid.
  - pose proof (trim_history_bounded N l l' ltac:(lia) Htrim) as Hb.
    unfold Store._trim_history.
    destruct (Z.gtb_spec (len l') N); [lia | reflexivity].
Qed.

End StoreEdges.

Lemma trim_history_idempotent_witness :
  Store._trim_history 2 [SystemMessage "s"; UserMessage "b"]
  = Ok [SystemMessage "s"; UserMessage "b"].
Proof.
  apply (trim_history_idempotent 2
           [SystemMessage "s"; UserMessage "a"; UserMessage "b"]
           [SystemMessage "s"; UserMessage "b"]);
    [lia | reflexivity].
Defined.

Section StoreEdges2.

(** X5.  With a capacity of zero or less the store does not hold what is
    added to it: on a store that is not empty, [add_message] keeps index 0
    and drops the [1 - N] oldest of the other messages, the new one being
    the last of them; on a store of one message the new message is lost. *)
Theorem add_message_nonpositive_capacity (N : Z) (m s : Message)
    (l : list Message) :
  N <= 0 ->
  Store.add_message N m (s :: l)
  = Ok (s :: drop (Z.to_nat (1 - N)) (l ++ [m])) /\
  Store.add_message N m [s] = Ok [s].
Proof.
  intros HN.
  assert (Hgen : forall k, Store.add_message N m (s :: k)
                           = Ok (s :: drop (Z.to_nat (1 - N)) (k ++ [m]))).
  { intros k. unfold Store.add_message, Store._trim_history. simpl.
    assert (Hlen : 0 < len (k ++ [m]))
      by (unfold len; rewrite length_app; simpl; lia).
    destruct (Z.gtb_spec (len (s :: k ++ [m])) N) as [_|Hle].
    2:{ unfold len in *. simpl in Hle. lia. }
    destruct (Z.gtb_spec (len (k ++ [m])) (N - 1)); [|lia].
    unfold slice_from.
    destruct (Z.ltb_spec (- (N - 1)) 0); [lia|].
    do 3 f_equal. lia. }
  split; [apply Hgen|].
  rewrite Hgen. simpl.
  destruct (Z.to_nat (1 - N)) as [|n] eqn:Hn; [lia|].
  simpl. now rewrite drop_nil.
Qed.

Lemma add_message_nonpositive_capacity_witness :
  Store.add_message 0 (UserMessage "q") [SystemMessage "s"]
  = Ok [SystemMessage "s"].
Proof.
  apply (add_message_nonpositive_capacity 0 (UserMessage "q")
           (SystemMessage "s") []).
  lia.
Defined.

(** X6.  Writing the system message twice is writing the second one: a
    later [_update_system_message] replaces the system message of an
    earlier one in place, so that runs do not pile up system messages; the
    rest of the list is never touched. *)
Theorem update_system_message_overwrites (p1 p2 : string)
    (l : list Message) :
  Store._update_system_message p2 (Store._update_system_message p1 l)
  = Store._update_system_message p2 l /\
  length (Store._update_system_message p2
            (Store._update_system_message p1 l))
  = length (Store._update_system_message p1 l) /\
  exists kept,
    Store._update_system_message p1 l = SystemMessage p1 :: kept /\
    (kept = l \/ kept = tail l).
Proof.
  unfold Store._update_system_message.
  destruct l as [|m0 l].
  - repeat split. exists []. split; [reflexivity | now left].
  - destruct (is_SystemMessage m0) eqn:Hm0.
    + repeat split. exists l. split; [reflexivity | now right].
    + repeat split. exists (m0 :: l). split; [reflexivity | now left].
Qed.

(** X7.  The test for an existing system message is on the class, not on
    the role: a plain [Message] with role SYSTEM at index 0 is not replaced;
    the new system message is put in front of it, and the model is sent two
    messages of role [system]. *)
Theorem system_role_is_not_system_class (p : string) (m0 : Message)
    (l : list Message) :
  role m0 = SYSTEM ->
  msg_class m0 <> SystemMessageCls ->
  Store._update_system_message p (m0 :: l) = SystemMessage p :: m0 :: l /\
  take 2 (map t_role
            (Store._prepare_messages
               (Store._update_system_message p (m0 :: l))))
  = ["system"; "system"].
Proof.
  intros Hrole Hcls.
  assert (Hupd : Store._update_system_message p (m0 :: l)
                 = SystemMessage p :: m0 :: l).
  { unfold Store._update_system_message, is_SystemMessage.
    now rewrite bool_decide_eq_false_2. }
  split; [exact Hupd|].
  rewrite Hupd. cbn. rewrite Hrole. reflexivity.
Qed.

Lemma system_role_is_not_system_class_witness :
  Store._update_system_message "new" [mkMessage MessageBase "old" SYSTEM]
  = [SystemMessage "new"; mkMessage MessageBase "old" SYSTEM].
Proof.
  apply (system_role_is_not_system_class "new"
           (mkMessage MessageBase "old" SYSTEM) []).
  - reflexivity.
  - discriminate.
Defined.

(** X8.  Whatever is stored, the model is only ever sent the roles
    [system], [user] and [assistant], one transport message per stored
    message. *)
Theorem transport_roles_are_model_roles (l : list Message)
    (tm : TransportMessage) :
  In tm (Store._prepare_messages l) ->
  (t_role tm = "system" \/ t_role tm = "user" \/ t_role tm = "assistant") /\
  length (Store._prepare_messages l) = length l.
Proof.
  intros Hin. split.
  - unfold Store._prepare_messages in Hin. apply in_map_iff in Hin.
    destruct Hin as (m & <- & _). cbn [t_role].
    destruct (role m); cbn; auto.
  - unfold Store._prepare_messages. apply length_map.
Qed.

Lemma transport_roles_are_model_roles_witness :
  let tm := mkTransport "user" "r" in
  t_role tm = "system" \/ t_role tm = "user" \/ t_role tm = "assistant".
Proof.
  intros tm.
  apply (transport_roles_are_model_roles
           [SystemMessage "s"; ExecutionResultMessage "r"] tm).
  cbn. right. left. reflexivity.
Defined.

End StoreEdges2.

(** ** Runs of the agent *)

Section RunShape.
Context {C : Collaborators}.

Lemma model_calls_app (l l' : list Call) :
  model_calls (l ++ l') = (model_calls l + model_calls l')%nat.
Proof. unfold model_calls. now rewrite List.filter_app, length_app. Qed.

Lemma turns_app (a b : list Call) : turns a -> turns b -> turns (a ++ b).
Proof.
  intros Ha Hb. induction Hb as [|l msgs _ IH|l msgs code _ IH].
  - now rewrite app_nil_r.
  - rewrite app_assoc. now constructor.
  - rewrite app_assoc. now constructor.
Qed.

(** What [_process_model_response] does to the record of calls: nothing, or
    one sandbox execution. *)
Lemma process_calls (model_response : string) (context : ExecutionContext.t)
    (self : PyCallingAgent) :
  exists out self',
    _process_model_response model_response context self
    = (Ok (out,
           if truthy (extract_python_code model_response)
           then context else ExecutionContext.complete context),
       self') /\
    max_steps self' = max_steps self /\
    (calls self' = calls self \/
     exists code, calls self' = calls self ++ [Execute code]).
Proof.
  destruct (truthy (extract_python_code model_response)) eqn:Ht.
  - apply truthy_true in Ht. destruct Ht as (code & Hx & Hne).
    destruct (runtime_execute (runtime self) code) as [[result|e] rt'] eqn:Hrun.
    + rewrite (process_code_ok _ _ _ _ _ _ Hx Hne Hrun).
      do 2 eexists. split; [reflexivity|].
      destruct (added_fields
                  (ExecutionResultMessage (format_next_step_prompt result))
                  (executed code rt'
                     (added (CodeExecutionMessage model_response) self)))
        as (_ & _ & -> & _ & ->).
      destruct (added_fields (CodeExecutionMessage model_response) self)
        as (_ & _ & H3 & _ & H5).
      cbn. rewrite H3, H5. split; [reflexivity | right; eauto].
    + rewrite (process_code_error _ _ _ _ _ _ Hx Hne Hrun).
      do 2 eexists. split; [reflexivity|].
      destruct (added_fields
                  (ExecutionResultMessage (retry_prompt_of (exn_str e)))
                  (executed code rt'
                     (added (CodeExecutionMessage model_response) self)))
        as (_ & _ & -> & _ & ->).
      destruct (added_fields (CodeExecutionMessage model_response) self)
        as (_ & _ & H3 & _ & H5).
      cbn. rewrite H3, H5. split; [reflexivity | right; eauto].
  - rewrite (process_final _ _ _ Ht).
    do 2 eexists. split; [reflexivity|].
    destruct (added_fields (AssistantMessage model_response) self)
      as (_ & _ & -> & _ & ->).
    split; [reflexivity | now left].
Qed.

(** One step: a raise of the model client, after its call was recorded, or
    one turn added to the record of calls. *)
Lemma execute_step_shape (context : ExecutionContext.t)
    (self : PyCallingAgent) :
  match _execute_step context self with
  | (Ok (out, context'), self') =>
      (exists block, calls self' = calls self ++ block /\ turns block /\
                     model_calls block = 1%nat) /\
      max_steps self' = max_steps self /\
      (context' = context \/ context' = ExecutionContext.complete context)
  | (Raise e, self') =>
      exists m',
        model_call (model self) (Store._prepare_messages (messages self))
        = (Raise e, m') /\
        self' = called (Store._prepare_messages (messages self)) m' self
  end.
Proof.
  destruct (model_call (model self) (Store._prepare_messages (messages self)))
    as [[r|e] m'] eqn:Hm.
  - rewrite (execute_step_answer _ _ _ _ Hm).
    destruct (process_calls r context
                (called (Store._prepare_messages (messages self)) m' self))
      as (out & self' & -> & Hms & Hcalls).
    split; [|split; [exact Hms|]].
    + cbn in Hcalls. destruct Hcalls as [Hc|[code Hc]]; rewrite Hc.
      * exists [CallModel (Store._prepare_messages (messages self))].
        split; [reflexivity|]. split; [|reflexivity].
        apply (turns_model []). constructor.
      * exists [CallModel (Store._prepare_messages (messages self));
                Execute code].
        split; [now rewrite <- app_assoc|]. split; [|reflexivity].
        apply (turns_model_execute []). constructor.
    + destruct (truthy (extract_python_code r)); [now left | now right].
  - rewrite (execute_step_raise _ _ _ _ Hm). eauto.
Qed.

(** The loop of [run], from a running context whose count is within the
    budget. *)
Lemma run_loop_shape (fuel : nat) :
  forall (context : ExecutionContext.t) (self : PyCallingAgent),
  ExecutionContext.is_running context = true ->
  0 <= ExecutionContext.total_steps context
    <= Z.max 0 (ExecutionContext.max_steps context) ->
  (Z.to_nat (ExecutionContext.max_steps context
             - ExecutionContext.total_steps context) < fuel)%nat ->
  ExecutionContext.max_steps context = max_steps self ->
  let '(rr, context', self') := run_loop fuel context self in
  match rr with
  | Returned (Some r) =>
      (exists suffix,
         calls self' = calls self ++ suffix /\ turns suffix /\
         model_calls suffix
         = Z.to_nat (steps_taken r - ExecutionContext.total_steps context)) /\
      resp_max_steps r = max_steps self /\
      steps_taken r = ExecutionContext.total_steps context' /\
      ((status r = SUCCESS /\
        ExecutionContext.state context' = COMPLETED /\
        ExecutionContext.total_steps context < steps_taken r
          <= ExecutionContext.max_steps context) \/
       (status r = ST_MAX_STEPS_REACHED /\
        resp_content r = "" /\
        ExecutionContext.state context' = MAX_STEPS_REACHED /\
        steps_taken r = Z.max 0 (ExecutionContext.max_steps context)))
  | Raised e => True
  | Returned None => False
  | OutOfFuel => False
  end.
Proof.
  induction fuel as [|fuel IH]; intros context self Hrun Htot Hfuel Hmax;
    [lia|].
  cbn [run_loop]. rewrite Hrun.
  unfold ExecutionContext.next_step.
  destruct (Z.geb_spec (ExecutionContext.total_steps context)
              (ExecutionContext.max_steps context)) as [Hge|Hlt];
    cbn [negb].
  - cbn. split; [|split; [reflexivity|split; [reflexivity|]]].
    + exists []. rewrite app_nil_r. split; [reflexivity|].
      split; [constructor|]. cbn. lia.
    + right. repeat split. lia.
  - set (context1 := ExecutionContext.mk _ _ _).
    pose proof (execute_step_shape context1 self) as Hstep.
    destruct (_execute_step context1 self) as [[[out context2]|e] self2];
      [|exact I].
    destruct Hstep as ((block & Hb1 & Hb2 & Hb3) & Hms & Hctx).
    apply bool_decide_eq_true in Hrun.
    destruct Hctx as [->| ->].
    + assert (Hrun1 : ExecutionContext.is_running context1 = true)
        by (unfold ExecutionContext.is_running; cbn;
            apply bool_decide_eq_true; exact Hrun).
      rewrite Hrun1. cbn [negb].
      assert (H1 : 0 <= ExecutionContext.total_steps context1
                     <= Z.max 0 (ExecutionContext.max_steps context1))
        by (unfold context1; cbn; lia).
      assert (H2 : (Z.to_nat (ExecutionContext.max_steps context1
                              - ExecutionContext.total_steps context1)
                    < fuel)%nat)
        by (unfold context1; cbn; lia).
      assert (H3 : ExecutionContext.max_steps context1 = max_steps self2)
        by (unfold context1; cbn; congruence).
      specialize (IH context1 self2 Hrun1 H1 H2 H3).
      clear H1 H2 H3.
      destruct (run_loop fuel context1 self2) as [[rr context'] self'].
      destruct rr as [[r|]|e|]; try exact IH.
      destruct IH as ((suffix & Hs1 & Hs2 & Hs3) & Hr1 & Hr2 & Hr3).
      split; [|split; [congruence|split; [exact Hr2|]]].
      * exists (block ++ suffix). rewrite Hs1, Hb1, <- app_assoc.
        split; [reflexivity|]. split; [now apply turns_app|].
        rewrite model_calls_app, Hb3, Hs3.
        unfold context1. cbn [ExecutionContext.total_steps].
        destruct Hr3 as [(_ & _ & H)|(_ & _ & _ & H)];
          unfold context1 in H;
          cbn [ExecutionContext.total_steps ExecutionContext.max_steps] in H;
          lia.
      * unfold context1 in Hr3.
        cbn [ExecutionContext.total_steps ExecutionContext.max_steps] in Hr3.
        destruct Hr3 as [(H1 & H2 & H3)|(H1 & H2 & H3 & H4)];
          [left | right]; repeat split; try assumption; lia.
    + change (ExecutionContext.is_running
                (ExecutionContext.complete context1)) with false.
      cbn [negb]. cbv iota.
      cbn [resp_max_steps steps_taken status resp_content
           ExecutionContext.complete ExecutionContext.total_steps
           ExecutionContext.state].
      unfold context1. cbn [ExecutionContext.total_steps].
      split; [|split; [exact Hms|split; [reflexivity|]]].
      * exists block. split; [exact Hb1|]. split; [exact Hb2|].
        rewrite Hb3. lia.
      * left. repeat split; lia.
Qed.

(** X9.  Whatever the collaborators do, [run] either lets an exception of
    the model client through or returns a response (never [None]): SUCCESS
    with between 1 and [max_steps] steps taken and a COMPLETED context, or
    MAX_STEPS_REACHED with empty content and as many steps taken as the
    budget allows (none for a budget below zero). *)
Theorem run_returns_a_response (query : string) (self : PyCallingAgent) :
  let '(rr, context', self') := run_ctx query self in
  match rr with
  | Returned (Some r) =>
      resp_max_steps r = max_steps self /\
      ((status r = SUCCESS /\
        ExecutionContext.state context' = COMPLETED /\
        1 <= steps_taken r <= max_steps self) \/
       (status r = ST_MAX_STEPS_REACHED /\
        resp_content r = "" /\
        ExecutionContext.state context' = MAX_STEPS_REACHED /\
        steps_taken r = Z.max 0 (max_steps self)))
  | Raised e => True
  | Returned None => False
  | OutOfFuel => False
  end.
Proof.
  unfold run_ctx. rewrite initialize_initialized.
  destruct (initialized_fields query self) as (_ & _ & Hms & _ & _).
  pose proof (run_loop_shape (loop_bound (max_steps self))
                (ExecutionContext.start (ExecutionContext.init (max_steps self)))
                (initialized query self)) as H.
  cbn [ExecutionContext.start ExecutionContext.init
       ExecutionContext.total_steps ExecutionContext.max_steps] in H.
  specialize (H eq_refl ltac:(lia) ltac:(unfold loop_bound; lia)
                (eq_sym Hms)).
  cbn [ExecutionContext.start ExecutionContext.init
       ExecutionContext.max_steps].
  destruct (run_loop _ _ _) as [[rr context'] self'].
  destruct rr as [[r|]|e|]; try exact H.
  destruct H as (_ & Hr1 & _ & Hr3).
  split; [congruence|].
  destruct Hr3 as [(H1 & H2 & H3)|(H1 & H2 & H3 & H4)]; [left | right];
    repeat split; try assumption; lia.
Qed.

(** X10.  When [run] returns, what it added to the record of calls is a
    sequence of turns, each a model call followed by at most one sandbox
    execution, and the model was called exactly [steps_taken] times. *)
Theorem run_calls_are_turns (query : string) (self : PyCallingAgent) :
  let '(rr, self') := run query self in
  match rr with
  | Returned (Some r) =>
      exists suffix,
        calls self' = calls self ++ suffix /\
        turns suffix /\
        model_calls suffix = Z.to_nat (steps_taken r)
  | _ => True
  end.
Proof.
  unfold run, run_ctx. rewrite initialize_initialized.
  destruct (initialized_fields query self) as (_ & _ & Hms & _ & Hcalls).
  pose proof (run_loop_shape (loop_bound (max_steps self))
                (ExecutionContext.start (ExecutionContext.init (max_steps self)))
                (initialized query self)) as H.
  cbn [ExecutionContext.start ExecutionContext.init
       ExecutionContext.total_steps ExecutionContext.max_steps] in H.
  specialize (H eq_refl ltac:(lia) ltac:(unfold loop_bound; lia)
                (eq_sym Hms)).
  cbn [ExecutionContext.start ExecutionContext.init
       ExecutionContext.max_steps].
  destruct (run_loop _ _ _) as [[rr context'] self'].
  destruct rr as [[r|]|e|]; try exact I.
  destruct H as ((suffix & Hs1 & Hs2 & Hs3) & _).
  exists suffix. rewrite Hs1, Hcalls.
  split; [reflexivity|]. split; [exact Hs2|].
  rewrite Hs3. f_equal. lia.
Qed.

(** X11.  With a budget of zero or less [run] calls neither the model nor
    the sandbox: it returns MAX_STEPS_REACHED with no step taken, after
    writing the system message and the query to the history. *)
Theorem run_without_budget (query : string) (self : PyCallingAgent) :
  max_steps self <= 0 ->
  run_ctx query self
  = (Returned (Some (mkAgentResponse "" ST_MAX_STEPS_REACHED 0
                       (max_steps self))),
     ExecutionContext.mk (max_steps self) 0 MAX_STEPS_REACHED,
     initialized query self) /\
  calls (initialized query self) = calls self.
Proof.
  intros Hle.
  destruct (initialized_fields query self) as (_ & _ & Hms & _ & Hcalls).
  split; [|exact Hcalls].
  unfold run_ctx. rewrite initialize_initialized.
  unfold loop_bound. cbn [run_loop].
  change (ExecutionContext.is_running
            (ExecutionContext.start (ExecutionContext.init (max_steps self))))
    with true. cbv iota.
  unfold ExecutionContext.next_step. cbn.
  destruct (Z.geb_spec 0 (max_steps self)); [|lia].
  cbn. now rewrite Hms.
Qed.

(** X12.  An exception of the model client on the first call leaves [run]
    as it is; by then the call is on record and the history already holds
    the query, as its last message. *)
Theorem model_error_propagates (query : string) (self : PyCallingAgent)
    (e : Exn) (m' : ModelState) :
  let self1 := initialized query self in
  let msgs := Store._prepare_messages (messages self1) in
  1 <= max_steps self ->
  1 <= max_history self ->
  model_call (model self1) msgs = (Raise e, m') ->
  run query self = (Raised e, called msgs m' self1) /\
  last (messages (called msgs m' self1)) = Some (UserMessage query) /\
  calls (called msgs m' self1) = calls self ++ [CallModel msgs].
Proof.
  intros self1 msgs HM HN Hm.
  destruct (initialized_fields query self) as (_ & _ & Hms & Hmh & Hcalls).
  split; [|split].
  - unfold run, run_ctx. rewrite initialize_initialized.
    unfold loop_bound. cbn [run_loop].
    change (ExecutionContext.is_running
              (ExecutionContext.start (ExecutionContext.init (max_steps self))))
      with true. cbv iota.
    unfold ExecutionContext.next_step.
    cbn [ExecutionContext.start ExecutionContext.init
         ExecutionContext.total_steps ExecutionContext.max_steps
         ExecutionContext.state].
    destruct (Z.geb_spec 0 (max_steps self)); [lia|]. cbn [negb].
    fold self1. unfold msgs in Hm.
    now rewrite (execute_step_raise _ _ _ _ Hm).
  - cbn [called record_call set_model messages].
    unfold self1, initialized, _initialize_conversation, bind,
      _update_system_message, bind, build_system_prompt.
    rewrite add_message_added. cbn [snd].
    apply added_last. cbn. exact HN.
  - cbn. unfold self1. now rewrite Hcalls.
Qed.

End RunShape.

Section Turns.
Context {C : Collaborators}.

Lemma added_room (message : Message) (self : PyCallingAgent) :
  len (messages self) + 1 <= max_history self ->
  messages (added message self) = messages self ++ [message].
Proof.
  intros Hroom.
  pose proof (added_messages message self) as H.
  rewrite (add_message_room _ _ _ Hroom) in H. now inversion H.
Qed.

(** X13.  A turn whose code runs: the handler returns the raw response and
    leaves the context as it is (the run goes on); the sandbox is called
    once, on the extracted code, and keeps its new state; with room for two
    more messages the history grows by the raw response as a CODE_EXECUTION
    message and the formatted result as an EXECUTION_RESULT message, in
    this order. *)
Theorem code_turn_success (model_response code result : string)
    (rt' : RuntimeState) (context : ExecutionContext.t)
    (self : PyCallingAgent) :
  extract_python_code model_response = Some code ->
  code <> "" ->
  runtime_execute (runtime self) code = (Ok result, rt') ->
  len (messages self) + 2 <= max_history self ->
  exists self',
    _process_model_response model_response context self
    = (Ok (model_response, context), self') /\
    messages self'
    = messages self
      ++ [CodeExecutionMessage model_response;
          ExecutionResultMessage (format_next_step_prompt result)] /\
    calls self' = calls self ++ [Execute code] /\
    runtime self' = rt' /\
    model self' = model self.
Proof.
  intros Hx Hne Hrun Hroom.
  eexists. split; [apply (process_code_ok _ _ _ _ _ _ Hx Hne Hrun)|].
  set (self1 := added (CodeExecutionMessage model_response) self).
  destruct (added_fields (CodeExecutionMessage model_response) self)
    as (H1 & H2 & H3 & H4 & H5). fold self1 in H1, H2, H3, H4, H5.
  assert (Hm1 : messages self1
                = messages self ++ [CodeExecutionMessage model_response])
    by (apply added_room; lia).
  set (self2 := executed code rt' self1).
  destruct (added_fields
              (ExecutionResultMessage (format_next_step_prompt result)) self2)
    as (G1 & G2 & G3 & G4 & G5).
  split; [|split; [|split]].
  - rewrite added_room.
    + cbn. rewrite Hm1, <- app_assoc. reflexivity.
    + cbn. rewrite Hm1, H4, len_app_one. lia.
  - rewrite G5. cbn. now rewrite H5.
  - rewrite G2. reflexivity.
  - rewrite G1. cbn. exact H1.
Qed.

(** X14.  A sandbox error on the first turn and an answer without code on
    the second, with a budget of at least two: [run] returns SUCCESS with
    two steps taken and the second response as content. *)
Theorem error_then_answer_succeeds (query : string) (self : PyCallingAgent)
    (r1 code r2 : string) (e : Exn) (m1 m2 : ModelState)
    (rt1 : RuntimeState) :
  let self1 := initialized query self in
  let msgs1 := Store._prepare_messages (messages self1) in
  let self2 :=
    added (ExecutionResultMessage (retry_prompt_of (exn_str e)))
      (executed code rt1
         (added (CodeExecutionMessage r1) (called msgs1 m1 self1))) in
  let msgs2 := Store._prepare_messages (messages self2) in
  2 <= max_steps self ->
  model_call (model self1) msgs1 = (Ok r1, m1) ->
  extract_python_code r1 = Some code ->
  code <> "" ->
  runtime_execute (runtime self1) code = (Raise e, rt1) ->
  model_call m1 msgs2 = (Ok r2, m2) ->
  truthy (extract_python_code r2) = false ->
  run query self
  = (Returned (Some (mkAgentResponse r2 SUCCESS 2 (max_steps self))),
     added (AssistantMessage r2) (called msgs2 m2 self2)).
Proof.
  intros self1 msgs1 self2 msgs2 HM Hm1 Hx1 Hne Hrun Hm2 Hx2.
  destruct (initialized_fields query self) as (_ & _ & Hms & _ & _).
  unfold run, run_ctx. rewrite initialize_initialized. fold self1.
  unfold loop_bound.
  set (c0 := ExecutionContext.start (ExecutionContext.init (max_steps self))).
  set (c1 := ExecutionContext.mk (max_steps self) 1 RUNNING).
  assert (Hc1 : (ExecutionContext.next_step c0).2 = c1)
    by (apply next_step_running; [reflexivity | cbn; lia]).
  assert (Hc2 : (ExecutionContext.next_step c1).2
                = ExecutionContext.mk (max_steps self) 2 RUNNING)
    by (apply next_step_running; [reflexivity | cbn; lia]).
  assert (Hmodel2 : model self2 = m1).
  { unfold self2.
    match goal with
    | |- model (added ?m ?s) = _ =>
        destruct (added_fields m s) as (-> & _)
    end.
    cbn.
    match goal with
    | |- model (added ?m ?s) = _ =>
        destruct (added_fields m s) as (-> & _)
    end.
    reflexivity. }
  destruct (Z.to_nat (max_steps self)) as [|[|n]] eqn:Hn; try lia.
  erewrite (run_loop_continue _ c0 c1 self1 self2).
  - erewrite (run_loop_finish _ c1
                (ExecutionContext.complete
                   (ExecutionContext.mk (max_steps self) 2 RUNNING))
                self2 (added (AssistantMessage r2) (called msgs2 m2 self2))
                r2).
    + cbn.
      match goal with
      | |- context [max_steps (added ?m ?s)] =>
          destruct (added_fields m s) as (_ & _ & -> & _)
      end.
      cbn. unfold self2.
      match goal with
      | |- context [max_steps (added ?m ?s)] =>
          destruct (added_fields m s) as (_ & _ & -> & _)
      end.
      cbn.
      match goal with
      | |- context [max_steps (added ?m ?s)] =>
          destruct (added_fields m s) as (_ & _ & -> & _)
      end.
      cbn. unfold self1. now rewrite Hms.
    + reflexivity.
    + cbn. lia.
    + rewrite Hc2.
      assert (Hm2' : model_call (model self2)
                       (Store._prepare_messages (messages self2))
                     = (Ok r2, m2)) by (rewrite Hmodel2; exact Hm2).
      rewrite (execute_step_answer _ _ _ _ Hm2').
      apply process_final. exact Hx2.
    + reflexivity.
  - reflexivity.
  - cbn. lia.
  - rewrite Hc1. unfold msgs1 in Hm1.
    rewrite (execute_step_answer _ _ _ _ Hm1).
    apply process_code_error; assumption.
  - reflexivity.
Qed.

(** X15.  On an agent without history and with room for a message, the
    conversation starts with the system prompt and the query: that is what
    is stored and, when the budget allows a step, what the first model call
    is given, as a [system] and a [user] message. *)
Theorem fresh_agent_first_call (query : string) (self : PyCallingAgent) :
  messages self = [] ->
  1 <= max_history self ->
  messages (initialized query self)
  = [SystemMessage (system_prompt_of self); UserMessage query] /\
  Store._prepare_messages (messages (initialized query self))
  = [mkTransport "system" (system_prompt_of self);
     mkTransport "user" query].
Proof.
  intros Hnil HN.
  assert (Hmsgs : messages (initialized query self)
                  = [SystemMessage (system_prompt_of self);
                     UserMessage query]).
  { unfold initialized, _initialize_conversation, bind,
      _update_system_message, bind, build_system_prompt.
    rewrite add_message_added. cbn [snd]. rewrite Hnil.
    unfold Store._update_system_message.
    fold (system_prompt_of self).
    set (self0 := set_messages [SystemMessage (system_prompt_of self)] self).
    pose proof (added_messages (UserMessage query) self0) as H.
    change (messages self0) with [SystemMessage (system_prompt_of self)] in H.
    change (max_history self0) with (max_history self) in H.
    destruct (Z.eq_dec (max_history self) 1) as [H1|H1].
    - rewrite H1 in H.
      change (Store.add_message 1 (UserMessage query)
                [SystemMessage (system_prompt_of self)])
        with (Ok [SystemMessage (system_prompt_of self); UserMessage query])
        in H.
      now inversion H.
    - rewrite add_message_room in H; [now inversion H|].
      unfold len. cbn. lia. }
  split; [exact Hmsgs|]. rewrite Hmsgs. reflexivity.
Qed.

(** X16.  A further run on an agent whose history starts with a system
    message, with room for one more message, continues the conversation:
    the system message is rewritten in place, the earlier messages stay,
    and the query is appended. *)
Theorem conversation_continues (query p0 : string) (hist : list Message)
    (self : PyCallingAgent) :
  messages self = SystemMessage p0 :: hist ->
  len (messages self) + 1 <= max_history self ->
  messages (initialized query self)
  = SystemMessage (system_prompt_of self) :: hist ++ [UserMessage query].
Proof.
  intros Hmsgs Hroom.
  unfold initialized, _initialize_conversation, bind,
    _update_system_message, bind, build_system_prompt.
  rewrite add_message_added. cbn [snd].
  fold (system_prompt_of self).
  assert (Hupd : Store._update_system_message (system_prompt_of self)
                   (messages self)
                 = SystemMessage (system_prompt_of self) :: hist)
    by (rewrite Hmsgs; reflexivity).
  rewrite Hupd.
  rewrite added_room.
  - reflexivity.
  - cbn [messages set_messages max_history].
    rewrite Hmsgs in Hroom. unfold len in *. cbn [length] in *. lia.
Qed.

End Turns.

(** ** Streamed steps and runs *)

Section StreamShape.
Context {C : Collaborators}.

(** What the streaming step handler does, next to the non-streaming one. *)
Lemma process_streaming_spec (model_response : string)
    (context : ExecutionContext.t) (self : PyCallingAgent) :
  let g := _process_model_response_streaming model_response context self in
  (exists out,
     _process_model_response model_response context self
     = (Ok (out, g_context g), g_self g)) /\
  g_end g = Ok tt /\
  yields g
  = [mkYield (outcome_event model_response (runtime self))
       (g_context g) (g_self g)].
Proof.
  cbv zeta.
  destruct (truthy (extract_python_code model_response)) eqn:Ht.
  - pose proof Ht as Ht'. apply truthy_true in Ht'.
    destruct Ht' as (code & Hx & Hne).
    destruct (added_fields (CodeExecutionMessage model_response) self)
      as (_ & Hrt & _).
    destruct (runtime_execute (runtime self) code) as [[result|e] rt'] eqn:Hrun.
    + assert (Hg : _process_model_response_streaming model_response context
                     self
                   = mkGen
                       [mkYield (mkEvent EV_EXECUTION_RESULT result) context
                          (added
                             (ExecutionResultMessage
                                (format_next_step_prompt result))
                             (executed code rt'
                                (added (CodeExecutionMessage model_response)
                                   self)))]
                       (Ok tt) context
                       (added
                          (ExecutionResultMessage
                             (format_next_step_prompt result))
                          (executed code rt'
                             (added (CodeExecutionMessage model_response)
                                self)))).
      { unfold _process_model_response_streaming. rewrite Ht, Hx.
        cbn [negb default from_option id]. rewrite add_message_added.
        unfold bind, execute. rewrite Hrt, Hrun.
        rewrite add_message_added. reflexivity. }
      rewrite Hg. cbn [g_context g_self g_end yields].
      split; [|split; [reflexivity|]].
      * eexists. apply (process_code_ok _ _ _ _ _ _ Hx Hne Hrun).
      * unfold outcome_event. rewrite Ht, Hx. cbn [negb default from_option id].
        now rewrite Hrun.
    + assert (Hg : _process_model_response_streaming model_response context
                     self
                   = mkGen
                       [mkYield (mkEvent EV_EXECUTION_ERROR (exn_str e))
                          context
                          (added
                             (ExecutionResultMessage
                                (retry_prompt_of (exn_str e)))
                             (executed code rt'
                                (added (CodeExecutionMessage model_response)
                                   self)))]
                       (Ok tt) context
                       (added
                          (ExecutionResultMessage
                             (retry_prompt_of (exn_str e)))
                          (executed code rt'
                             (added (CodeExecutionMessage model_response)
                                self)))).
      { unfold _process_model_response_streaming. rewrite Ht, Hx.
        cbn [negb default from_option id]. rewrite add_message_added.
        unfold bind, execute. rewrite Hrt, Hrun.
        rewrite add_message_added. reflexivity. }
      rewrite Hg. cbn [g_context g_self g_end yields].
      split; [|split; [reflexivity|]].
      * eexists. apply (process_code_error _ _ _ _ _ _ Hx Hne Hrun).
      * unfold outcome_event. rewrite Ht, Hx. cbn [negb default from_option id].
        now rewrite Hrun.
  - unfold _process_model_response_streaming, outcome_event. rewrite Ht.
    cbn [negb]. rewrite add_message_added.
    cbn [g_context g_self g_end yields].
    split; [|split; reflexivity].
    eexists. apply (process_final _ _ _ Ht).
Qed.

(** X17.  The two step handlers do the same to the agent and to the
    context: what the non-streaming handler returns with, the streaming
    one ends with, after a single event that tells the outcome:
    FINAL_RESPONSE with the response, EXECUTION_RESULT with the sandbox's
    raw result, or EXECUTION_ERROR with the error text. *)
Theorem handlers_agree (model_response : string)
    (context : ExecutionContext.t) (self : PyCallingAgent) :
  let g := _process_model_response_streaming model_response context self in
  (exists out,
     _process_model_response model_response context self
     = (Ok (out, g_context g), g_self g)) /\
  g_end g = Ok tt /\
  yields g
  = [mkYield (outcome_event model_response (runtime self))
       (g_context g) (g_self g)].
Proof.
  cbv zeta.
  destruct (process_streaming_spec model_response context self)
    as (Hreturn & Hend & Hyields).
  split; [exact Hreturn|]. split; [exact Hend | exact Hyields].
Qed.

Lemma segment_events_text_or_code (segments : list Segment) :
  Forall (fun ev => ev_type ev = TEXT \/ ev_type ev = CODE)
    (segment_events segments).
Proof.
  induction segments as [|sg segments IH]; simpl; [constructor|].
  apply Forall_app. split; [|exact IH].
  destruct (seg_type sg); (constructor; [cbn; auto | constructor]).
Qed.

Lemma stream_chunks_text_or_code (chunks : list string)
    (parser : ParserState) :
  Forall (fun ev => ev_type ev = TEXT \/ ev_type ev = CODE)
    (stream_chunks parser chunks).
Proof.
  revert parser.
  induction chunks as [|chunk chunks IH]; intros parser; simpl; [constructor|].
  destruct (process_chunk parser chunk) as [segments parser'].
  apply Forall_app. split; [apply segment_events_text_or_code | apply IH].
Qed.

Lemma outcome_event_type (model_response : string) (rt : RuntimeState) :
  ev_type (outcome_event model_response rt) = FINAL_RESPONSE \/
  ev_type (outcome_event model_response rt) = EV_EXECUTION_RESULT \/
  ev_type (outcome_event model_response rt) = EV_EXECUTION_ERROR.
Proof.
  unfold outcome_event.
  destruct (negb (truthy (extract_python_code model_response)));
    [now left|].
  destruct (runtime_execute rt _).1; cbn; auto.
Qed.

(** X18.  The events of one streamed step whose stream ends normally: the
    TEXT and CODE events of the chunks, in the order of the chunks, then
    exactly one event for the outcome of the step, which is neither TEXT
    nor CODE. *)
Theorem step_events_order (context : ExecutionContext.t)
    (self : PyCallingAgent) (chunks : list string) (m' : ModelState) :
  model_stream (model self) (Store._prepare_messages (messages self))
  = ((chunks, None), m') ->
  let outcome := outcome_event (String.concat "" chunks) (runtime self) in
  map y_event (yields (_stream_step_execution context self))
  = stream_chunks parser_new chunks ++ [outcome] /\
  Forall (fun ev => ev_type ev = TEXT \/ ev_type ev = CODE)
    (stream_chunks parser_new chunks) /\
  (ev_type outcome = FINAL_RESPONSE \/
   ev_type outcome = EV_EXECUTION_RESULT \/
   ev_type outcome = EV_EXECUTION_ERROR).
Proof.
  intros Hs outcome. split; [|split].
  - unfold _stream_step_execution. rewrite Hs. cbn [yields].
    rewrite map_app, map_map. cbn [y_event]. rewrite map_id.
    f_equal.
    match goal with
    | |- context [_process_model_response_streaming ?r ?c ?s] =>
        destruct (process_streaming_spec r c s) as (_ & _ & ->)
    end.
    reflexivity.
  - apply stream_chunks_text_or_code.
  - apply outcome_event_type.
Qed.

Lemma forward_running (ys zs : list Yield) :
  Forall (fun y => ExecutionContext.is_running (y_context y) = true) ys ->
  forward (ys ++ zs)
  = (map y_event ys ++ (forward zs).1, (forward zs).2).
Proof.
  induction 1 as [|y ys Hy _ IH]; cbn [app map forward].
  - now destruct (forward zs).
  - rewrite Hy. cbn [negb]. rewrite IH. reflexivity.
Qed.

Lemma forward_none_running (ys : list Yield) :
  (forward ys).2 = None ->
  Forall (fun y => ExecutionContext.is_running (y_context y) = true) ys.
Proof.
  induction ys as [|y ys IH]; cbn [forward]; [constructor|].
  destruct (ExecutionContext.is_running (y_context y)) eqn:Hrun; cbn [negb].
  - destruct (forward ys) as [evs stop]. cbn [snd] in *.
    intros Hs. constructor; [exact Hrun | apply IH, Hs].
  - discriminate.
Qed.

Lemma forward_stop (ys : list Yield) (y : Yield) :
  Forall yield_ok ys ->
  (forward ys).2 = Some y ->
  exists pre, (forward ys).1 = pre ++ [y_event y] /\
              is_terminal (y_event y) = true.
Proof.
  induction 1 as [|y0 ys Hy0 _ IH]; cbn [forward]; [discriminate|].
  destruct (ExecutionContext.is_running (y_context y0)) eqn:Hrun; cbn [negb].
  - destruct (forward ys) as [evs stop]. cbn [fst snd] in *.
    intros Hs. destruct (IH Hs) as (pre & -> & Ht).
    exists (y_event y0 :: pre). split; [reflexivity | exact Ht].
  - cbn [fst snd]. intros [= <-]. exists []. split; [reflexivity|].
    unfold yield_ok in Hy0. now rewrite Hrun in Hy0.
Qed.

(** A step that was not cut short by the consumer and ended normally leaves
    the context running. *)
Lemma stream_step_end_running (context : ExecutionContext.t)
    (self : PyCallingAgent) :
  ExecutionContext.is_running context = true ->
  (forward (yields (_stream_step_execution context self))).2 = None ->
  ExecutionContext.is_running
    (g_context (_stream_step_execution context self)) = true.
Proof.
  intros Hrun. unfold _stream_step_execution.
  destruct (model_stream (model self) (Store._prepare_messages (messages self)))
    as [[chunks raised] m'].
  destruct raised as [e|]; cbn [yields g_context]; [intros _; exact Hrun|].
  match goal with
  | |- context [_process_model_response_streaming ?r ?c ?s] =>
      destruct (process_streaming_spec r c s) as (_ & _ & Hy);
      set (g := _process_model_response_streaming r c s) in *
  end.
  rewrite Hy. intros Hf. apply forward_none_running in Hf.
  apply Forall_app in Hf. destruct Hf as [_ Hf].
  inversion Hf; subst. assumption.
Qed.

Lemma stream_loop_terminal (fuel : nat) :
  forall (context : ExecutionContext.t) (self : PyCallingAgent),
  ExecutionContext.is_running context = true ->
  (stream_loop fuel context self).1.1.2 = StreamReturned ->
  exists pre ev,
    (stream_loop fuel context self).1.1.1 = pre ++ [ev] /\
    is_terminal ev = true.
Proof.
  induction fuel as [|fuel IH]; intros context self Hrun; cbn [stream_loop].
  - discriminate.
  - rewrite Hrun. unfold ExecutionContext.next_step.
    destruct (Z.geb_spec (ExecutionContext.total_steps context)
                (ExecutionContext.max_steps context)); cbn [negb].
    { intros _. exists [], (mkEvent EV_MAX_STEPS_REACHED "Max steps reached").
      split; reflexivity. }
    set (context1 := ExecutionContext.mk _ _ _).
    assert (Hrun1 : ExecutionContext.is_running context1 = true) by exact Hrun.
    pose proof (stream_step_yields context1 self Hrun1) as Hok.
    pose proof (forward_stop (yields (_stream_step_execution context1 self)))
      as Hstop.
    pose proof (stream_step_end_running context1 self Hrun1) as Hend.
    destruct (forward (yields (_stream_step_execution context1 self)))
      as [evs [y|]]; cbn [fst snd] in *.
    { intros _. destruct (Hstop y Hok eq_refl) as (pre & -> & Ht). eauto. }
    specialize (Hend eq_refl).
    destruct (g_end (_stream_step_execution context1 self)) as [[]|e];
      [|discriminate].
    specialize (IH (g_context (_stream_step_execution context1 self))
                   (g_self (_stream_step_execution context1 self)) Hend).
    destruct (stream_loop fuel _ _) as [[[evs' r] c'] s'].
    cbn [fst snd] in *. intros Hr.
    destruct (IH Hr) as (pre & ev & -> & Ht).
    exists (evs ++ pre), ev. split; [now rewrite app_assoc | exact Ht].
Qed.

(** X19.  A streamed run that returns ends on a terminal event: the event
    sequence is not empty and its last event is a FINAL_RESPONSE or a
    MAX_STEPS_REACHED. *)
Theorem stream_ends_with_terminal_event (query : string)
    (self : PyCallingAgent) :
  (stream_events query self).1.1.2 = StreamReturned ->
  exists pre ev,
    (stream_events query self).1.1.1 = pre ++ [ev] /\
    is_terminal ev = true.
Proof.
  unfold stream_events. rewrite initialize_initialized.
  apply stream_loop_terminal. reflexivity.
Qed.

(** X20.  When the model's stream breaks on the first step, the events of
    the chunks received so far have been passed on, the exception leaves
    [stream_events], and nothing of the partial response is stored: the
    history is as [_initialize_conversation] left it. *)
Theorem broken_stream_stores_nothing (query : string)
    (self : PyCallingAgent) (chunks : list string) (e : Exn)
    (m' : ModelState) :
  let self1 := initialized query self in
  let msgs := Store._prepare_messages (messages self1) in
  1 <= max_steps self ->
  model_stream (model self1) msgs = ((chunks, Some e), m') ->
  exists context' self',
    stream_events query self
    = (stream_chunks parser_new chunks, StreamRaised e, context', self') /\
    messages self' = messages self1 /\
    runtime self' = runtime self1 /\
    calls self' = calls self ++ [StreamModel msgs].
Proof.
  intros self1 msgs HM Hs.
  destruct (initialized_fields query self) as (_ & _ & Hms & _ & Hcalls).
  unfold stream_events. rewrite initialize_initialized. fold self1.
  unfold loop_bound. cbn [stream_loop].
  change (ExecutionContext.is_running
            (ExecutionContext.start (ExecutionContext.init (max_steps self))))
    with true. cbv iota.
  unfold ExecutionContext.next_step.
  cbn [ExecutionContext.start ExecutionContext.init
       ExecutionContext.total_steps ExecutionContext.max_steps
       ExecutionContext.state].
  destruct (Z.geb_spec 0 (max_steps self)); [lia|]. cbn [negb].
  unfold _stream_step_execution. fold msgs. rewrite Hs.
  cbn [yields g_end g_context g_self].
  set (ys := map _ (stream_chunks parser_new chunks)).
  assert (Hf : forward ys = (stream_chunks parser_new chunks, None)).
  { rewrite <- (app_nil_r ys). rewrite forward_running.
    - cbn [forward fst snd]. unfold ys.
      rewrite map_map. cbn [y_event]. now rewrite map_id, app_nil_r.
    - unfold ys. apply Forall_map. apply Forall_forall. intros ev _.
      reflexivity. }
  rewrite Hf. do 2 eexists. split; [reflexivity|].
  cbn. unfold self1. rewrite Hcalls. repeat split.
Qed.

End StreamShape.

Section RunAndStream.
Context {C : Collaborators}.

Lemma same_state_refl (a : PyCallingAgent) : same_state a a.
Proof. unfold same_state. repeat split. Qed.

Lemma same_state_added (message : Message) (a b : PyCallingAgent) :
  same_state a b -> same_state (added message a) (added message b).
Proof.
  intros (H1 & H2 & H3 & H4 & H5 & H6 & H7 & H8 & H9).
  unfold added.
  destruct (agent_add_message message a) as (la & Hla & ->).
  destruct (agent_add_message message b) as (lb & Hlb & ->).
  rewrite H4, H5, Hlb in Hla. inversion Hla; subst.
  unfold same_state. cbn. repeat split; assumption.
Qed.

Lemma same_state_executed (code : string) (rt : RuntimeState)
    (a b : PyCallingAgent) :
  same_state a b -> same_state (executed code rt a) (executed code rt b).
Proof.
  intros (H1 & H2 & H3 & H4 & H5 & H6 & H7 & H8 & H9).
  unfold same_state. cbn. repeat split; assumption.
Qed.

Lemma same_state_called (msgs : list TransportMessage) (m : ModelState)
    (a b : PyCallingAgent) :
  same_state a b ->
  same_state (called msgs m a) (record_call (StreamModel msgs) (set_model m b)).
Proof.
  intros (H1 & H2 & H3 & H4 & H5 & H6 & H7 & H8 & H9).
  unfold same_state. cbn. repeat split; assumption.
Qed.

(** The step handler reads only what [same_state] compares. *)
Lemma process_same_state (model_response : string)
    (context : ExecutionContext.t) (a b : PyCallingAgent) :
  same_state a b ->
  exists out context' a' b',
    _process_model_response model_response context a
    = (Ok (out, context'), a') /\
    _process_model_response model_response context b
    = (Ok (out, context'), b') /\
    same_state a' b' /\
    ((truthy (extract_python_code model_response) = true /\
      context' = context) \/
     (truthy (extract_python_code model_response) = false /\
      context' = ExecutionContext.complete context /\ out = model_response)).
Proof.
  intros Hab. pose proof Hab as (_ & Hrt & _).
  destruct (truthy (extract_python_code model_response)) eqn:Ht.
  - pose proof Ht as Ht'. apply truthy_true in Ht'.
    destruct Ht' as (code & Hx & Hne).
    destruct (runtime_execute (runtime a) code) as [[result|e] rt'] eqn:Hrun.
    + pose proof Hrun as Hrunb. rewrite Hrt in Hrunb.
      rewrite (process_code_ok _ _ _ _ context a Hx Hne Hrun).
      rewrite (process_code_ok _ _ _ _ context b Hx Hne Hrunb).
      do 4 eexists. split; [reflexivity|]. split; [reflexivity|].
      split; [|left; split; reflexivity].
      apply same_state_added, same_state_executed, same_state_added, Hab.
    + pose proof Hrun as Hrunb. rewrite Hrt in Hrunb.
      rewrite (process_code_error _ _ _ _ context a Hx Hne Hrun).
      rewrite (process_code_error _ _ _ _ context b Hx Hne Hrunb).
      do 4 eexists. split; [reflexivity|]. split; [reflexivity|].
      split; [|left; split; reflexivity].
      apply same_state_added, same_state_executed, same_state_added, Hab.
  - rewrite (process_final _ _ a Ht), (process_final _ _ b Ht).
    do 4 eexists. split; [reflexivity|]. split; [reflexivity|].
    split; [apply same_state_added, Hab | right; repeat split].
Qed.

(** Both loops on agents in the same state, under a model whose stream
    carries what its call returns. *)
Lemma loops_agree
    (Hsync : forall ms msgs, exists r ms' chunks,
       model_call ms msgs = (Ok r, ms') /\
       model_stream ms msgs = ((chunks, None), ms') /\
       String.concat "" chunks = r)
    (fuel : nat) :
  forall (context : ExecutionContext.t) (a b : PyCallingAgent),
  ExecutionContext.is_running context = true ->
  (Z.to_nat (ExecutionContext.max_steps context
             - ExecutionContext.total_steps context) < fuel)%nat ->
  same_state a b ->
  exists r context' a' b' pre,
    run_loop fuel context a = (Returned (Some r), context', a') /\
    stream_loop fuel context b
    = (pre ++ [final_event r], StreamReturned, context', b') /\
    same_state a' b'.
Proof.
  induction fuel as [|fuel IH]; intros context a b Hrun Hfuel Hab; [lia|].
  cbn [run_loop stream_loop]. rewrite Hrun.
  pose proof Hab as (Hmodel & _ & Hmax & _ & Hmsgs & _).
  unfold ExecutionContext.next_step.
  destruct (Z.geb_spec (ExecutionContext.total_steps context)
              (ExecutionContext.max_steps context)) as [Hge|Hlt];
    cbn [negb].
  { eexists _, _, _, _, []. split; [reflexivity|].
    split; [reflexivity | exact Hab]. }
  set (context1 := ExecutionContext.mk _ _ _).
  assert (Hrun1 : ExecutionContext.is_running context1 = true) by exact Hrun.
  destruct (Hsync (model a) (Store._prepare_messages (messages a)))
    as (r & ms' & chunks & Hcall & Hstream & Hcat).
  rewrite (execute_step_answer context1 a r ms' Hcall).
  unfold _stream_step_execution. rewrite <- Hmodel, <- Hmsgs, Hstream, Hcat.
  set (msgs := Store._prepare_messages (messages a)).
  set (b1 := record_call (StreamModel msgs) (set_model ms' b)).
  destruct (process_streaming_spec r context1 b1) as ((out0 & Hproc) & Hend & Hys).
  destruct (process_same_state r context1 (called msgs ms' a) b1
              (same_state_called msgs ms' a b Hab))
    as (out & context' & a' & b' & Ha & Hb & Hab' & Hcase).
  rewrite Hb in Hproc. injection Hproc as Hout Hctx Hself.
  rewrite Ha. cbn [yields g_end g_context g_self].
  rewrite Hys, Hend, <- Hctx, <- Hself.
  rewrite forward_running
    by (apply Forall_map, Forall_forall; intros ev _; exact Hrun1).
  rewrite map_map. cbn [y_event]. rewrite map_id.
  cbn [forward y_context y_event y_self fst snd].
  destruct Hcase as [(Ht & ->)|(Ht & -> & ->)].
  - rewrite Hrun1. cbn [negb fst snd].
    destruct (IH context1 a' b' Hrun1) as (r' & c' & a'' & b'' & pre & H1 & H2 & H3).
    { subst context1. cbn [ExecutionContext.max_steps
                           ExecutionContext.total_steps]. lia. }
    { exact Hab'. }
    rewrite H1, H2.
    exists r', c', a'', b'',
      ((stream_chunks parser_new chunks
        ++ [outcome_event r (runtime b1)]) ++ pre).
    split; [reflexivity|]. split; [|exact H3].
    now rewrite (app_assoc _ pre).
  - change (ExecutionContext.is_running (ExecutionContext.complete context1))
      with false.
    cbn [negb fst snd].
    eexists _, _, _, _, (stream_chunks parser_new chunks).
    split; [reflexivity|]. split; [|exact Hab'].
    unfold outcome_event, final_event. rewrite Ht. reflexivity.
Qed.

(** X21.  Under a model whose stream ends normally and carries, chunk by
    chunk, the response its call returns (with the same new model state),
    [run] and [stream_events] do the same: [run] returns a response, the
    streamed events end on the event of that response (FINAL_RESPONSE with
    its content, or MAX_STEPS_REACHED), and both leave the same context
    and, the record of calls apart, the same agent: history, model and
    sandbox. *)
Theorem stream_and_run_agree (query : string) (self : PyCallingAgent) :
  (forall ms msgs, exists r ms' chunks,
     model_call ms msgs = (Ok r, ms') /\
     model_stream ms msgs = ((chunks, None), ms') /\
     String.concat "" chunks = r) ->
  exists r context a' b' pre,
    run_ctx query self = (Returned (Some r), context, a') /\
    stream_events query self
    = (pre ++ [final_event r], StreamReturned, context, b') /\
    same_state a' b'.
Proof.
  intros Hsync. unfold run_ctx, stream_events.
  rewrite initialize_initialized.
  apply (loops_agree Hsync).
  - reflexivity.
  - unfold loop_bound. cbn. lia.
  - apply same_state_refl.
Qed.

End RunAndStream.

(** ** References to the history *)

Section Aliases.
Import Refs.

(** X22.  A reference to the agent's message list, taken before a message
    is added, sees the message appended; when the addition exceeds the
    capacity the agent goes on with a new list object that holds the
    trimmed history, and the list referred to keeps the untrimmed one;
    otherwise the agent keeps its list object. *)
Theorem trimming_rebinds_the_history (message : Message) (self : agent)
    (h : heap) (l : list Message) :
  h !! messages self = Some l ->
  let '(self', h') := add_message message self h in
  h' !! messages self = Some (l ++ [message]) /\
  if len l + 1 >? max_history self
  then messages self' ∉ dom h /\
       messages self' <> messages self /\
       Store.add_message (max_history self) message l
       = Ok (h' !!! messages self')
  else self' = self.
Proof.
  intros Hl. destruct (lookup_total_Some _ _ _ Hl) as [Hll Hin].
  unfold add_message, _trim_history, Store.add_message, Store._trim_history.
  rewrite lookup_total_insert_eq, Hll, len_app_one.
  destruct (len l + 1 >? max_history self).
  - destruct (l ++ [message]) as [|system_msg non_system_messages] eqn:Happ.
    { now destruct l. }
    unfold new_list.
    set (h1 := <[messages self := system_msg :: non_system_messages]> h).
    set (r := fresh (dom h1)).
    assert (Hfresh : r ∉ dom h1) by apply is_fresh.
    assert (Hdom : dom h1 = {[messages self]} ∪ dom h)
      by (unfold h1; apply dom_insert_L).
    assert (Hr : r <> messages self) by (rewrite Hdom in Hfresh; set_solver).
    cbn [messages max_history].
    split; [|split; [|split]].
    + rewrite lookup_insert_ne by exact Hr. unfold h1.
      now rewrite lookup_insert_eq.
    + rewrite Hdom in Hfresh. set_solver.
    + exact Hr.
    + now rewrite lookup_total_insert_eq.
  - split; [now rewrite lookup_insert_eq | reflexivity].
Qed.

End Aliases.

(** ** The further properties on the closed instances *)

Section FurtherWitnesses.
Import Demo.

(** A budget of zero. *)
Lemma run_without_budget_witness :
  let C := demo (fun _ => "ok") in
  let self := demo_agent (fun _ => "ok") 0 10 [] in
  @run_ctx C "q" self
  = (Returned (Some (mkAgentResponse "" ST_MAX_STEPS_REACHED 0 0)),
     ExecutionContext.mk 0 0 MAX_STEPS_REACHED,
     @initialized C "q" self) /\
  @calls C (@initialized C "q" self) = [].
Proof.
  intros C self.
  apply (@run_without_budget C "q" self).
  simpl. lia.
Defined.

(** A model client that refuses the first call. *)
Lemma model_error_propagates_witness :
  let C := DemoFailing.failing in
  let self := DemoFailing.failing_agent 3 10 [] in
  let self1 := @initialized C "q" self in
  let msgs := Store._prepare_messages (@messages C self1) in
  @run C "q" self
  = (Raised (Exception "connection refused"), @called C msgs 1%nat self1) /\
  last (@messages C (@called C msgs 1%nat self1)) = Some (UserMessage "q") /\
  @calls C (@called C msgs 1%nat self1) = [] ++ [CallModel msgs].
Proof.
  intros C self self1 msgs.
  apply (@model_error_propagates C "q" self
           (Exception "connection refused") 1%nat).
  - simpl. lia.
  - simpl. lia.
  - reflexivity.
Defined.

(** A turn whose code runs in the sandbox. *)
Lemma code_turn_success_witness :
  let C := demo (fun _ => "!x") in
  let self := demo_agent (fun _ => "!x") 3 10 [SystemMessage "system"] in
  let context := ExecutionContext.mk 3 1 RUNNING in
  exists self',
    @_process_model_response C "!x" context self
    = (Ok ("!x", context), self') /\
    @messages C self'
    = [SystemMessage "system"]
      ++ [CodeExecutionMessage "!x"; ExecutionResultMessage "x"] /\
    @calls C self' = [] ++ [Execute "x"] /\
    @runtime C self' = 1%nat /\
    @model C self' = 0%nat.
Proof.
  intros C self context.
  apply (@code_turn_success C "!x" "x" "x" 1%nat context self).
  - reflexivity.
  - discriminate.
  - reflexivity.
  - unfold len. simpl. lia.
Defined.

(** A sandbox error, then an answer. *)
Lemma error_then_answer_succeeds_witness :
  let reply := fun n : nat => match n with O => "!boom" | _ => "fixed" end in
  let C := demo reply in
  let self := demo_agent reply 5 10 [] in
  (@run C "q" self).1
  = Returned (Some (mkAgentResponse "fixed" SUCCESS 2 5)).
Proof.
  intros reply C self.
  pose proof (@error_then_answer_succeeds C "q" self "!boom" "boom" "fixed"
                (Exception "boom failed") 1%nat 2%nat 1%nat) as H.
  cbv zeta in H. rewrite H.
  - reflexivity.
  - simpl. lia.
  - reflexivity.
  - reflexivity.
  - discriminate.
  - reflexivity.
  - reflexivity.
  - reflexivity.
Defined.

(** The first run of an agent built without history. *)
Lemma fresh_agent_first_call_witness :
  let C := demo (fun _ => "ok") in
  let self := demo_agent (fun _ => "ok") 3 10 [] in
  @messages C (@initialized C "q" self)
  = [SystemMessage "system"; UserMessage "q"] /\
  Store._prepare_messages (@messages C (@initialized C "q" self))
  = [mkTransport "system" "system"; mkTransport "user" "q"].
Proof.
  intros C self.
  apply (@fresh_agent_first_call C "q" self).
  - reflexivity.
  - simpl. lia.
Defined.

(** A second run of an agent that has a history. *)
Lemma conversation_continues_witness :
  let C := demo (fun _ => "ok") in
  let self :=
    demo_agent (fun _ => "ok") 3 10
      [SystemMessage "old"; UserMessage "a"; AssistantMessage "b"] in
  @messages C (@initialized C "q" self)
  = SystemMessage "system"
    :: [UserMessage "a"; AssistantMessage "b"] ++ [UserMessage "q"].
Proof.
  intros C self.
  apply (@conversation_continues C "q" "old"
           [UserMessage "a"; AssistantMessage "b"] self).
  - reflexivity.
  - unfold len. simpl. lia.
Defined.

(** One streamed step of a model that answers without code. *)
Lemma step_events_order_witness :
  let C := demo (fun _ => "ok") in
  let self := demo_agent (fun _ => "ok") 3 10 [SystemMessage "system"] in
  let context := ExecutionContext.mk 3 1 RUNNING in
  map (@y_event C) (@yields C (@_stream_step_execution C context self))
  = @stream_chunks C (@parser_new C) (chars "ok")
    ++ [@outcome_event C (String.concat "" (chars "ok")) 0%nat].
Proof.
  intros C self context.
  pose proof (@step_events_order C context self (chars "ok") 1%nat) as H.
  cbv zeta in H. destruct H as (H & _); [reflexivity|]. exact H.
Defined.

(** A streamed run that returns. *)
Lemma stream_ends_with_terminal_event_witness :
  let C := demo (fun _ => "!x") in
  let self := demo_agent (fun _ => "!x") 1 10 [] in
  exists pre ev,
    (@stream_events C "q" self).1.1.1 = pre ++ [ev] /\
    @is_terminal ev = true.
Proof.
  intros C self.
  apply (@stream_ends_with_terminal_event C "q" self).
  vm_compute. reflexivity.
Defined.

(** A stream that breaks after two chunks. *)
Lemma broken_stream_stores_nothing_witness :
  let C := DemoFailing.failing in
  let self := DemoFailing.failing_agent 3 10 [] in
  let self1 := @initialized C "q" self in
  let msgs := Store._prepare_messages (@messages C self1) in
  exists context' self',
    @stream_events C "q" self
    = (@stream_chunks C (@parser_new C) ["par"; "tial"],
       StreamRaised (Exception "connection lost"), context', self') /\
    @messages C self' = @messages C self1 /\
    @runtime C self' = @runtime C self1 /\
    @calls C self' = [] ++ [StreamModel msgs].
Proof.
  intros C self self1 msgs.
  apply (@broken_stream_stores_nothing C "q" self ["par"; "tial"]
           (Exception "connection lost") 1%nat).
  - simpl. lia.
  - reflexivity.
Defined.

(** A model that streams what it would return, one character a chunk. *)
Lemma stream_and_run_agree_witness :
  let C := demo (fun _ => "ok") in
  let self := demo_agent (fun _ => "ok") 3 10 [] in
  exists r context a' b' pre,
    @run_ctx C "q" self = (Returned (Some r), context, a') /\
    @stream_events C "q" self
    = (pre ++ [final_event r], StreamReturned, context, b') /\
    @same_state C a' b'.
Proof.
  intros C self.
  apply (@stream_and_run_agree C "q" self).
  intros ms msgs. exists "ok", (S ms), (chars "ok").
  split; [reflexivity|]. split; reflexivity.
Defined.

(** A third message for a capacity of two. *)
Lemma trimming_rebinds_the_history_witness :
  let h : gmap positive (list Message) :=
    <[1%positive := [SystemMessage "s"; UserMessage "a"]]> ∅ in
  let self := Refs.mkAgentRef 1%positive 2 in
  let '(self', h') := Refs.add_message (AssistantMessage "b") self h in
  h' !! 1%positive
  = Some ([SystemMessage "s"; UserMessage "a"] ++ [AssistantMessage "b"]) /\
  Refs.messages self' <> 1%positive /\
  h' !!! Refs.messages self' = [SystemMessage "s"; AssistantMessage "b"].
Proof.
  intros h self.
  pose proof (trimming_rebinds_the_history (AssistantMessage "b") self h
                [SystemMessage "s"; UserMessage "a"]) as H.
  destruct (Refs.add_message (AssistantMessage "b") self h) as [self' h'].
  destruct H as (H1 & _ & H2 & H3); [vm_compute; reflexivity|].
  split; [exact H1|]. split; [exact H2|].
  now inversion H3.
Defined.

End FurtherWitnesses.
